(** * reactive-table: a shallow embedding of [src/index.js]

    The component [ReactiveTable] renders a schema and a data array as a
    table, watches both for in-place mutation, formats each cell through
    [_getValue], and toggles sub-rows from a click handler.  The
    definitions below follow the methods of the class one by one; the
    libraries the class imports (on-change, moment, lit) are not part of
    the repository and appear as small explicit interfaces. *)

From Stdlib Require Import ZArith Ascii String.
From stdpp Require Import base option list gmap strings pretty.

Open Scope string_scope.
Open Scope list_scope.

(** ** JavaScript values

    Numbers are the integers and NaN (the code never computes with them);
    arrays and objects are trees held by value.  Members inherited from
    the prototypes (methods such as [toString]) are not modelled. *)

Inductive prim :=
  | PUndefined
  | PNull
  | PBool (b : bool)
  | PNum (n : Z)
  | PNaN
  | PStr (s : string).

#[warnings="-register-all"]
Inductive value :=
  | VPrim (p : prim)
  | VArr (elems : list value)
  | VObj (fields : gmap string value).

Coercion VPrim : prim >-> value.

Definition VUndef : value := VPrim PUndefined.
Definition VStr (s : string) : value := VPrim (PStr s).
Definition VNum (n : Z) : value := VPrim (PNum n).

(** [!p] is true exactly for the falsy primitives. *)
Definition truthy_prim (p : prim) : bool :=
  match p with
  | PUndefined | PNull | PNaN => false
  | PBool b => b
  | PNum n => negb (n =? 0)%Z
  | PStr s => negb (String.eqb s "")
  end.

Definition truthy (v : value) : bool :=
  match v with
  | VPrim p => truthy_prim p
  | VArr _ | VObj _ => true
  end.

(** [Array.isArray]. *)
Definition isArray (v : value) : bool :=
  match v with VArr _ => true | _ => false end.

(** [a ?? b]. *)
Definition nullish (v : value) : bool :=
  match v with
  | VPrim PUndefined | VPrim PNull => true
  | _ => false
  end.

Definition coalesce (a b : value) : value := if nullish a then b else a.

(** [v === "s"] for a string literal [s]. *)
Definition strict_eq_str (v : value) (s : string) : bool :=
  match v with
  | VPrim (PStr s') => String.eqb s' s
  | _ => false
  end.

(** ToString, as used to turn a computed member name into a property
    key.  For an object that has a member [toString] of its own the
    conversion of JavaScript raises (the member cannot be a function
    here); the conversion below is the one of every other value, of the
    primitives in particular. *)
Definition prim_to_string (p : prim) : string :=
  match p with
  | PUndefined => "undefined"
  | PNull => "null"
  | PBool true => "true"
  | PBool false => "false"
  | PNum n => pretty n
  | PNaN => "NaN"
  | PStr s => s
  end.

Fixpoint to_string (v : value) : string :=
  match v with
  | VPrim p => prim_to_string p
  | VArr l =>
      String.concat ","
        (map (fun e => if nullish e then "" else to_string e) l)
  | VObj _ => "[object Object]"
  end.

(** Array index keys are the canonical decimal numerals. *)
Definition digit_of (c : ascii) : option nat :=
  let n := nat_of_ascii c in
  if ((48 <=? n) && (n <=? 57))%nat then Some (n - 48)%nat else None.

Fixpoint parse_digits (acc : nat) (s : string) : option nat :=
  match s with
  | EmptyString => Some acc
  | String c s' => d ← digit_of c; parse_digits (10 * acc + d)%nat s'
  end.

Definition parse_index (k : string) : option nat :=
  match k with
  | EmptyString => None
  | _ => n ← parse_digits 0 k; if decide (pretty n = k) then Some n else None
  end.

Fixpoint string_nth (s : string) (i : nat) : option ascii :=
  match s, i with
  | EmptyString, _ => None
  | String c _, O => Some c
  | String _ s', S i' => string_nth s' i'
  end.

(** [v[k]]: [None] is the TypeError raised when [v] is [undefined] or
    [null]; a missing member reads as [undefined]. *)
Definition get_prop (v : value) (k : string) : option value :=
  match v with
  | VPrim PUndefined | VPrim PNull => None
  | VPrim (PStr s) =>
      if String.eqb k "length" then Some (VNum (Z.of_nat (String.length s)))
      else match parse_index k with
           | Some i =>
               Some (match string_nth s i with
                     | Some c => VStr (String c EmptyString)
                     | None => VUndef
                     end)
           | None => Some VUndef
           end
  | VPrim _ => Some VUndef
  | VArr l =>
      if String.eqb k "length" then Some (VNum (Z.of_nat (length l)))
      else match parse_index k with
           | Some i => Some (default VUndef (l !! i))
           | None => Some VUndef
           end
  | VObj fs => Some (default VUndef (fs !! k))
  end.

(** [v[e]] with a computed member name [e]. *)
Definition get_member (v e : value) : option value := get_prop v (to_string e).

(** ** The moment library, as far as [_getValue] uses it

    [moment(x)] builds a moment from any value (an unparseable one gives
    an invalid moment, not an exception); [format] renders it with a
    format string in the local time zone; [toISOString] renders it in UTC
    and answers [null] for an invalid moment. *)

Class MomentLib := {
  moment_t : Type;
  moment : value → moment_t;
  moment_format : moment_t → string → string;
  moment_toISOString : moment_t → value;
}.

(** ** Value Formatter: [_getValue] *)

(** What [_getValue] hands to the template: a plain value, markup wrapped
    by [unsafeStatic], or the template [<img src="..."/>]. *)
Inductive rendered :=
  | RValue (v : value)
  | RUnsafeStatic (markup : value)
  | RImg (src : value).

(** [this.dateFormat] is declared with [type: String]; [None] is
    [undefined]. *)
Definition truthy_format (f : option string) : bool :=
  match f with
  | Some s => negb (String.eqb s "")
  | None => false
  end.

Section Formatter.
Context `{M : MomentLib}.
Variable dateFormat : option string.

Definition _getValue (row header : value) : option rendered :=
  key ← get_prop header "key";
  raw ← get_member row key;
  if negb (truthy raw) then
    dflt ← get_prop header "default";
    Some (RValue (coalesce dflt (VStr "")))
  else
    ty ← get_prop header "type";
    if strict_eq_str ty "date" then
      let date := moment raw in
      Some (RValue (if truthy_format dateFormat
                    then VStr (moment_format date (default "" dateFormat))
                    else moment_toISOString date))
    else if strict_eq_str ty "html" then Some (RUnsafeStatic raw)
    else if strict_eq_str ty "image" then Some (RImg raw)
    else Some (RValue raw).
End Formatter.

(** ** Templates produced by the Render Planner *)

(** A header cell: the placeholder [<th></th>] or [<th>${h.name}</th>]. *)
Inductive th :=
  | ThEmpty
  | Th (name : value).

Definition is_placeholder (c : th) : bool :=
  match c with ThEmpty => true | Th _ => false end.

Inductive td_content :=
  | TdEmpty
  | TdText (s : string)
  | TdValue (r : rendered).

(** A body cell: its [class] attribute ([None] when the tag has none),
    whether [@click] is bound to [_handleToggleExpandClick], its content. *)
Record td := Td {
  td_class : option string;
  td_click : bool;
  td_body : td_content;
}.

Record template := Template {
  thead : list th;
  tbody : list (list td);
  tfoot : value;
}.

(** The value given to the style property [--gridtemplate]. *)
Record grid_template := Grid {
  leading_1rem : bool;
  repeat_1fr : nat;
}.

Definition grid_css (g : grid_template) : string :=
  (if leading_1rem g then "1rem " else "")
    +:+ "repeat(" +:+ pretty (Z.of_nat (repeat_1fr g)) +:+ ", 1fr)".

Definition columns (g : grid_template) : nat :=
  ((if leading_1rem g then 1 else 0) + repeat_1fr g)%nat.

(** ** Watched objects and the component state

    Root objects live in a heap and are reached through references: the
    raw object, or a wrapper made by on-change around another reference.
    Every wrapper has its own identity [id]. *)

Definition loc := nat.

Inductive ref :=
  | Raw (l : loc)
  | Watched (id : nat) (eventName : string) (target : ref).

Fixpoint root (r : ref) : loc :=
  match r with
  | Raw l => l
  | Watched _ _ t => root t
  end.

(** What a property of the component holds. *)
Inductive slot :=
  | SPrim (p : prim)
  | SRef (r : ref).

(** [===] on what a property holds: primitives by value, objects by
    identity (a wrapper is its [id]). *)
#[global] Instance prim_eq_dec : EqDecision prim.
Proof. solve_decision. Defined.

#[global] Instance ref_eq_dec : EqDecision ref.
Proof. solve_decision. Defined.

#[global] Instance slot_eq_dec : EqDecision slot.
Proof. solve_decision. Defined.

Definition truthy_slot (s : slot) : bool :=
  match s with
  | SPrim p => truthy_prim p
  | SRef _ => true
  end.

Record event := CustomEvent {
  ev_type : string;
  ev_detail : ref;
}.

(** What the component does to the outside, oldest first.  [Dispatched e
    seen]: [dispatchEvent(e)], where [seen] is the content of [e.detail]
    while the listeners run. *)
Inductive effect :=
  | Dispatched (e : event) (seen : option value)
  | UpdateRequested.

Record state := State {
  data : slot;
  schema : slot;
  dateFormat : option string;
  hasHiddenRows : bool;
  gridtemplate : option string;
  heap : gmap loc value;
  next_proxy : nat;
  effects : list effect;
}.

Definition set_data (s : slot) (st : state) : state :=
  State s (schema st) (dateFormat st) (hasHiddenRows st) (gridtemplate st)
        (heap st) (next_proxy st) (effects st).

Definition set_schema (s : slot) (st : state) : state :=
  State (data st) s (dateFormat st) (hasHiddenRows st) (gridtemplate st)
        (heap st) (next_proxy st) (effects st).

Definition set_hasHiddenRows (b : bool) (st : state) : state :=
  State (data st) (schema st) (dateFormat st) b (gridtemplate st)
        (heap st) (next_proxy st) (effects st).

Definition set_gridtemplate (g : string) (st : state) : state :=
  State (data st) (schema st) (dateFormat st) (hasHiddenRows st) (Some g)
        (heap st) (next_proxy st) (effects st).

Definition set_heap (h : gmap loc value) (st : state) : state :=
  State (data st) (schema st) (dateFormat st) (hasHiddenRows st)
        (gridtemplate st) h (next_proxy st) (effects st).

Definition set_next_proxy (n : nat) (st : state) : state :=
  State (data st) (schema st) (dateFormat st) (hasHiddenRows st)
        (gridtemplate st) (heap st) n (effects st).

Definition add_effect (e : effect) (st : state) : state :=
  State (data st) (schema st) (dateFormat st) (hasHiddenRows st)
        (gridtemplate st) (heap st) (next_proxy st) (effects st ++ [e]).

(** Reading a property of the component as a value. *)
Definition deref (st : state) (r : ref) : option value := heap st !! root r.

Definition read_slot (st : state) (s : slot) : option value :=
  match s with
  | SPrim p => Some (VPrim p)
  | SRef r => deref st r
  end.

(** The receiver of [.some] and [.map] has to be an array. *)
Definition as_array (v : value) : option (list value) :=
  match v with VArr l => Some l | _ => None end.

(** ** Mutation Watcher: [_watchObject] *)

Definition dispatchEvent (e : event) (st : state) : state :=
  add_effect (Dispatched e (deref st (ev_detail e))) st.

Definition requestUpdate (st : state) : state := add_effect UpdateRequested st.

(** The arrow function handed to [onChange]; [eventName] and [obj] are
    the variables it closes over. *)
Definition watch_callback (eventName : string) (obj : ref) (st : state) : state :=
  requestUpdate (dispatchEvent (CustomEvent eventName obj) st).

(** [onChange(obj, callback)]: a new wrapper around [obj].  Building a
    proxy around a primitive raises a TypeError. *)
Definition _watchObject (obj : slot) (eventName : string) (st : state)
  : option (slot * state) :=
  match obj with
  | SRef r =>
      Some (SRef (Watched (next_proxy st) eventName r),
            set_next_proxy (S (next_proxy st)) st)
  | SPrim _ => None
  end.

(** One in-place change of a root object, as on-change reports it: the
    new content as a function of the old one. *)
Definition mutation := value → value.

(** [arr.push(x)] and [obj[k] = x] as mutations. *)
Definition push (x : value) : mutation :=
  fun v => match v with VArr l => VArr (l ++ [x]) | _ => v end.

Definition set_field (k : string) (x : value) : mutation :=
  fun v => match v with VObj fs => VObj (<[k := x]> fs) | _ => v end.

(** A mutation made through a reference.  on-change applies the change
    to the target and then calls the callback of the wrapper, once; a
    wrapper whose target is itself a wrapper forwards the change to it
    first. *)
Fixpoint mutate (r : ref) (m : mutation) (st : state) : state :=
  match r with
  | Raw l => set_heap (alter m l (heap st)) st
  | Watched _ eventName obj => watch_callback eventName obj (mutate obj m st)
  end.

Definition mutate_all (r : ref) (ms : list mutation) (st : state) : state :=
  foldl (fun s m => mutate r m s) st ms.

(** ** Life cycle: [constructor] and [willUpdate] *)

(** A fresh array literal. *)
Definition alloc (v : value) (st : state) : slot * state :=
  let l := fresh (dom (heap st)) in
  (SRef (Raw l), set_heap (<[l := v]> (heap st)) st).

(** The element before the body of the constructor runs, in a world
    with heap [h] where [n] wrappers exist. *)
Definition blank (h : gmap loc value) (n : nat) : state :=
  State (SPrim PUndefined) (SPrim PUndefined) None false None h n [].

Definition constructor (h : gmap loc value) (n : nat) : option state :=
  let st := blank h n in
  let '(a, st) := alloc (VArr []) st in
  '(d, st) ← _watchObject a "data-change" st;
  let st := set_data d st in
  let '(a, st) := alloc (VArr []) st in
  '(s, st) ← _watchObject a "schema-change" st;
  let st := set_schema s st in
  Some (set_hasHiddenRows false st).

Definition willUpdate (changed : gset string) (st : state) : option state :=
  st ← (if bool_decide ("data" ∈ changed) && truthy_slot (data st)
        then '(d, st') ← _watchObject (data st) "data-change" st;
             Some (set_data d st')
        else Some st);
  if bool_decide ("schema" ∈ changed) && truthy_slot (schema st)
  then '(s, st') ← _watchObject (schema st) "schema-change" st;
       Some (set_schema s st')
  else Some st.

(** An assignment [el.data = v] (or [el.schema = v]) from outside.  lit
    compares the value with the one the property holds ([!==], with NaN
    equal to itself): when they are the same nothing happens; otherwise
    it stores the value and, in the update that follows, calls
    [willUpdate] with the name of the property.  The two steps are taken
    together here. *)
Definition assign_data (v : slot) (st : state) : option state :=
  if decide (v = data st) then Some st
  else willUpdate {["data"]} (set_data v st).

Definition assign_schema (v : slot) (st : state) : option state :=
  if decide (v = schema st) then Some st
  else willUpdate {["schema"]} (set_schema v st).

(** ** Render Planner: [_getHeaders], [_getRows], [render] *)

Definition _getHeaders (hasHidden : bool) (sch : list value) : option (list th) :=
  hs ← mapM (fun h => Th <$> get_prop h "name") sch;
  Some ((if hasHidden then [ThEmpty] else []) ++ hs).

Definition nodata_row : list td :=
  [Td (Some "nodata") false (TdText "There is no data to show")].

Section Rows.
Context `{M : MomentLib}.
Variable dateFormat' : option string.
Variable hasHidden : bool.
Variable sch : list value.

(** The cells of one element of a grouped row. *)
Definition subrow_cells (index : nat) (subrow : value) : option (list td) :=
  let first := bool_decide (index = 0%nat) in
  cells ← mapM (fun header =>
                  v ← _getValue dateFormat' subrow header;
                  Some (Td (Some (if first then "" else "subrow hidden"))
                           false (TdValue v))) sch;
  Some (Td (Some (if first then "expander" else "subrow hidden")) true TdEmpty
          :: cells).

Definition row_cells (row : value) : option (list td) :=
  match row with
  | VArr subrows =>
      cs ← mapM (fun p => subrow_cells p.1 p.2) (imap pair subrows);
      Some (concat cs)
  | _ =>
      cells ← mapM (fun header =>
                      v ← _getValue dateFormat' row header;
                      Some (Td None false (TdValue v))) sch;
      Some ((if hasHidden then [Td None false TdEmpty] else []) ++ cells)
  end.

Definition _getRows (D : list value) : option (list (list td)) :=
  if (length D =? 0)%nat then Some [nodata_row] else mapM row_cells D.
End Rows.

Section Render.
Context `{M : MomentLib}.

Definition render (st : state) : option (template * state) :=
  D ← read_slot st (data st) ≫= as_array;
  let hidden := existsb isArray D in
  let st := set_hasHiddenRows hidden st in
  sv ← read_slot st (schema st);
  n ← get_prop sv "length";
  let st :=
    set_gridtemplate
      ((if hasHiddenRows st then "1rem " else "")
         +:+ "repeat(" +:+ to_string n +:+ ", 1fr)") st in
  sch ← as_array sv;
  headers ← _getHeaders (hasHiddenRows st) sch;
  rows ← _getRows (dateFormat st) (hasHiddenRows st) sch D;
  count ← get_prop (VArr D) "length";
  Some (Template headers rows count, st).
End Render.

(** ** Expansion toggle: [_handleToggleExpandClick]

    The rendered body as the handler sees it: rows of cells, each cell
    with its [classList] and whether [@click] is bound on it.  The event target is the cell [j] of row [i];
    its [parentNode] is that row. *)

Record cell := Cell {
  classList : list string;
  listener : bool;
  cell_body : td_content;
}.

(** [classList.toggle(tok)]. *)
Definition toggle (tok : string) (cl : list string) : list string :=
  if bool_decide (tok ∈ cl) then filter (fun t => t ≠ tok) cl else cl ++ [tok].

Definition toggle_class (tok : string) (c : cell) : cell :=
  Cell (toggle tok (classList c)) (listener c) (cell_body c).

Definition has_class (tok : string) (c : cell) : bool :=
  bool_decide (tok ∈ classList c).

(** [row.querySelectorAll('.subrow').forEach(cell => cell.classList.toggle('hidden'))]. *)
Definition toggle_subrows (row : list cell) : list cell :=
  map (fun c => if has_class "subrow" c then toggle_class "hidden" c else c) row.

Definition _handleToggleExpandClick (i j : nat) (rows : list (list cell))
  : option (list (list cell)) :=
  row ← rows !! i;
  _ ← row !! j;
  let row := toggle_subrows row in
  let row := alter (toggle_class "expanded") j row in
  Some (<[i := row]> rows).

(** The tokens of a [class] attribute. *)
Fixpoint class_tokens (cur : string) (s : string) : list string :=
  match s with
  | EmptyString => if String.eqb cur "" then [] else [cur]
  | String c s' =>
      if Ascii.eqb c " "
      then (if String.eqb cur "" then class_tokens "" s'
            else cur :: class_tokens "" s')
      else class_tokens (cur +:+ String c EmptyString) s'
  end.

Definition cell_of_td (c : td) : cell :=
  Cell (class_tokens "" (default "" (td_class c))) (td_click c) (td_body c).

Definition dom_of_rows (rows : list (list td)) : list (list cell) :=
  map (map cell_of_td) rows.

(** A click on the cell [j] of row [i]: the handler runs when the cell
    carries the [@click] listener, and nothing happens otherwise. *)
Definition click (i j : nat) (rows : list (list cell))
  : option (list (list cell)) :=
  row ← rows !! i;
  c ← row !! j;
  if listener c then _handleToggleExpandClick i j rows else Some rows.

(** ** A reference instance of the moment interface

    It covers what the examples of the specification need: UTC
    timestamps written [YYYY-MM-DDTHH:mm:ss] or [YYYY-MM-DDTHH:mm:ss.SSS]
    followed by [Z], the tokens [YYYY MM DD HH mm ss SSS] of [format],
    and [toISOString].  A moment is its instant in milliseconds since the
    epoch; other inputs are answered like an invalid date.  The local
    time zone is [utcOffset] minutes ahead of UTC. *)

Module RefMoment.

Open Scope Z_scope.

Definition days_from_civil (y m d : Z) : Z :=
  let y := if m <=? 2 then y - 1 else y in
  let era := y / 400 in
  let yoe := y mod 400 in
  let doy := (153 * (if 2 <? m then m - 3 else m + 9) + 2) / 5 + d - 1 in
  let doe := yoe * 365 + yoe / 4 - yoe / 100 + doy in
  era * 146097 + doe - 719468.

Definition civil_from_days (z : Z) : Z * Z * Z :=
  let z := z + 719468 in
  let era := z / 146097 in
  let doe := z mod 146097 in
  let yoe := (doe - doe / 1460 + doe / 36524 - doe / 146096) / 365 in
  let doy := doe - (365 * yoe + yoe / 4 - yoe / 100) in
  let mp := (5 * doy + 2) / 153 in
  let d := doy - (153 * mp + 2) / 5 + 1 in
  let m := if mp <? 10 then mp + 3 else mp - 9 in
  let y := yoe + era * 400 in
  (if m <=? 2 then y + 1 else y, m, d).

Definition is_leap (y : Z) : bool :=
  ((y mod 4 =? 0) && negb (y mod 100 =? 0)) || (y mod 400 =? 0).

Definition days_in_month (y m : Z) : Z :=
  if m =? 2 then (if is_leap y then 29 else 28)
  else if (m =? 4) || (m =? 6) || (m =? 9) || (m =? 11) then 30 else 31.

Definition digit (c : ascii) : option Z := Z.of_nat <$> digit_of c.

Fixpoint number (acc : Z) (cs : list ascii) : option Z :=
  match cs with
  | [] => Some acc
  | c :: cs' => d ← digit c; number (10 * acc + d) cs'
  end.

Definition instant (y mo d h mi s ms : Z) : option Z :=
  if (1 <=? mo) && (mo <=? 12) && (1 <=? d) && (d <=? days_in_month y mo)
     && (h <=? 23) && (mi <=? 59) && (s <=? 59)
  then Some ((((days_from_civil y mo d * 24 + h) * 60 + mi) * 60 + s) * 1000 + ms)
  else None.

Definition parse_iso (s : string) : option Z :=
  match list_ascii_of_string s with
  | y1 :: y2 :: y3 :: y4 :: "-" :: m1 :: m2 :: "-" :: d1 :: d2 :: "T"
      :: h1 :: h2 :: ":" :: i1 :: i2 :: ":" :: s1 :: s2 :: rest =>
      y ← number 0 [y1; y2; y3; y4];
      mo ← number 0 [m1; m2];
      d ← number 0 [d1; d2];
      h ← number 0 [h1; h2];
      mi ← number 0 [i1; i2];
      se ← number 0 [s1; s2];
      ms ← match rest with
           | ["Z"] => Some 0
           | ["."; f1; f2; f3; "Z"] => number 0 [f1; f2; f3]
           | _ => None
           end%char;
      instant y mo d h mi se ms
  | _ => None
  end%char.

(** [n] in decimal, padded with zeros to [width] digits. *)
Definition pad (width : nat) (n : Z) : string :=
  let s := pretty n in
  string_of_list_ascii (replicate (width - String.length s) "0"%char) +:+ s.

Record fields := Fields {
  f_year : Z; f_month : Z; f_day : Z;
  f_hour : Z; f_minute : Z; f_second : Z; f_milli : Z;
}.

Definition fields_of (t : Z) : fields :=
  let '(y, m, d) := civil_from_days (t / 86400000) in
  let r := t mod 86400000 in
  Fields y m d (r / 3600000) (r / 60000 mod 60) (r / 1000 mod 60) (r mod 1000).

Fixpoint format_fields (f : fields) (fmt : string) : string :=
  match fmt with
  | String "Y" (String "Y" (String "Y" (String "Y" rest))) =>
      pad 4 (f_year f) +:+ format_fields f rest
  | String "M" (String "M" rest) => pad 2 (f_month f) +:+ format_fields f rest
  | String "D" (String "D" rest) => pad 2 (f_day f) +:+ format_fields f rest
  | String "H" (String "H" rest) => pad 2 (f_hour f) +:+ format_fields f rest
  | String "m" (String "m" rest) => pad 2 (f_minute f) +:+ format_fields f rest
  | String "s" (String "s" rest) => pad 2 (f_second f) +:+ format_fields f rest
  | String "S" (String "S" (String "S" rest)) =>
      pad 3 (f_milli f) +:+ format_fields f rest
  | String c rest => String c (format_fields f rest)
  | EmptyString => EmptyString
  end%char.

Definition toISOString (m : option Z) : value :=
  match m with
  | Some t => VStr (format_fields (fields_of t) "YYYY-MM-DDTHH:mm:ss.SSSZ")
  | None => VPrim PNull
  end.

Definition format (utcOffset : Z) (m : option Z) (fmt : string) : string :=
  match m with
  | Some t => format_fields (fields_of (t + utcOffset * 60000)) fmt
  | None => "Invalid date"
  end.

Definition parse (v : value) : option Z :=
  match v with
  | VPrim (PStr s) => parse_iso s
  | _ => None
  end.

Definition lib (utcOffset : Z) : MomentLib :=
  {| moment_t := option Z;
     moment := parse;
     moment_format := format utcOffset;
     moment_toISOString := toISOString |}.

End RefMoment.

(** ** Predicates used to state the results *)

(** Member access on [v] does not raise. *)
Definition has_members (v : value) : Prop := nullish v = false.

(** A row whose cells can be formatted: a simple row, or a grouped row
    of such rows. *)
Definition row_ok (row : value) : Prop :=
  match row with
  | VArr subrows => Forall has_members subrows
  | _ => has_members row
  end.

(** [v.k], reading [undefined] where the access would raise. *)
Definition prop (v : value) (k : string) : value := default VUndef (get_prop v k).

Definition header_cells (sch : list value) : list th :=
  map (fun h => Th (prop h "name")) sch.

(** The successive contents of a root under a list of mutations. *)
Fixpoint successive (v : value) (ms : list mutation) : list value :=
  match ms with
  | [] => []
  | m :: ms' => m v :: successive (m v) ms'
  end.

(** The identities of the wrappers of a reference, outermost first. *)
Fixpoint wrapper_ids (r : ref) : list nat :=
  match r with
  | Raw _ => []
  | Watched id _ t => id :: wrapper_ids t
  end.





(** The rows and column descriptors used in the examples. *)
Definition obj (fields : list (string * value)) : value :=
  VObj (list_to_map fields).

Definition date_row : value := obj [("when", VStr "2024-01-15T00:00:00Z")].
Definition date_column : value :=
  obj [("key", VStr "when"); ("name", VStr "When"); ("type", VStr "date")].

Definition zero_row : value := obj [("qty", VNum 0)].
Definition na_column (ty : string) : value :=
  obj [("key", VStr "qty"); ("name", VStr "Quantity"); ("type", VStr ty);
       ("default", VStr "N/A")].

(** A component holding the data [D] and the schema [sch], each behind
    one wrapper, as an assignment from outside leaves them. *)
Definition table_state (D sch : list value) : state :=
  State (SRef (Watched 0 "data-change" (Raw 0)))
        (SRef (Watched 1 "schema-change" (Raw 1)))
        None false None
        (<[0%nat := VArr D]> (<[1%nat := VArr sch]> ∅)) 2 [].

Definition name_column : value := obj [("key", VStr "name"); ("name", VStr "Name")].
Definition qty_column : value := obj [("key", VStr "qty"); ("name", VStr "Quantity")].
Definition simple_row : value := obj [("name", VStr "bolt"); ("qty", VNum 7)].
Definition grouped_row : value :=
  VArr [obj [("name", VStr "kit"); ("qty", VNum 3)];
        obj [("name", VStr "nut"); ("qty", VNum 2)];
        obj [("name", VStr "washer"); ("qty", VNum 1)]].

(** The body of a table with two grouped rows, as rendered for the
    schema [[name_column]]: the leading cells carry the listener, the
    cells with a value do not. *)
Definition plain_cell (classes : list string) : cell :=
  Cell classes true TdEmpty.

Definition value_cell (classes : list string) (name : string) : cell :=
  Cell classes false (TdValue (RValue (VStr name))).

Definition two_groups : list value :=
  [VArr [obj [("name", VStr "kit")]; obj [("name", VStr "nut")]];
   VArr [obj [("name", VStr "box")]; obj [("name", VStr "lid")]]].

Definition two_groups_dom : list (list cell) :=
  [[plain_cell ["expander"]; value_cell [] "kit";
    plain_cell ["subrow"; "hidden"]; value_cell ["subrow"; "hidden"] "nut"];
   [plain_cell ["expander"]; value_cell [] "box";
    plain_cell ["subrow"; "hidden"]; value_cell ["subrow"; "hidden"] "lid"]].

(** What a mutation through [r] adds to the effects when the listeners
    see [seen]: one event and one update request per wrapper of [r], the
    innermost wrapper first. *)
Fixpoint notifications (r : ref) (seen : option value) : list effect :=
  match r with
  | Raw _ => []
  | Watched _ eventName obj =>
      notifications obj seen
        ++ [Dispatched (CustomEvent eventName obj) seen; UpdateRequested]
  end.

(** A cell in the state the renderer leaves it in: hidden exactly when
    it belongs to a sub-row, and not expanded. *)
Definition collapsed (c : cell) : Prop :=
  ("hidden" ∈ classList c ↔ "subrow" ∈ classList c) ∧ "expanded" ∉ classList c.

(** The [class] attributes that occur in the templates of [_getRows]. *)
Definition row_classes : list (option string) :=
  [None; Some ""; Some "expander"; Some "subrow hidden"; Some "nodata"].

(** The empty cell in front of an element of a grouped row. *)
Definition leading_cell (t : td) : Prop :=
  td_body t = TdEmpty
  ∧ (td_class t = Some "expander" ∨ td_class t = Some "subrow hidden").

(** The number of grid rows a data row takes when all is expanded. *)
Definition row_height (row : value) : nat :=
  match row with VArr subrows => length subrows | _ => 1 end.

Definition html_column : value :=
  obj [("key", VStr "name"); ("name", VStr "Name"); ("type", VStr "html")].

(** * Results *)

(** ** Value Formatter *)

Section FormatterFacts.
Context `{M : MomentLib}.
Variable df : option string.

Lemma get_prop_has_members v k : has_members v → is_Some (get_prop v k).
Proof.
  unfold has_members. destruct v as [[]| |]; simpl; try discriminate; eauto.
  - intros _. destruct (String.eqb k "length"); eauto.
    destruct (parse_index k); eauto.
  - intros _. destruct (String.eqb k "length"); eauto.
    destruct (parse_index k); eauto.
Qed.

Lemma get_prop_prop v k : has_members v → get_prop v k = Some (prop v k).
Proof.
  intros H. destruct (get_prop_has_members v k H) as [x Hx].
  unfold prop. by rewrite Hx.
Qed.

Lemma get_prop_Some_has_members v k x : get_prop v k = Some x → has_members v.
Proof. destruct v as [[]| |]; simpl; try discriminate; done. Qed.

Lemma getValue_total row header :
  has_members row → has_members header → is_Some (_getValue df row header).
Proof.
  intros Hr Hh. unfold _getValue, get_member.
  rewrite (get_prop_prop header "key" Hh). simpl.
  rewrite (get_prop_prop row _ Hr). simpl.
  rewrite (get_prop_prop header "default" Hh), (get_prop_prop header "type" Hh).
  simpl. repeat case_match; eauto.
Qed.

(** The falsy branch: the fallback, whatever the type and the library. *)
Lemma getValue_falsy row header key raw :
  get_prop header "key" = Some key →
  get_member row key = Some raw →
  truthy raw = false →
  _getValue df row header
  = Some (RValue (coalesce (prop header "default") (VStr ""))).
Proof.
  intros Hk Hr Hf. unfold _getValue. rewrite Hk. simpl. rewrite Hr. simpl.
  rewrite Hf. simpl.
  by rewrite (get_prop_prop header "default" (get_prop_Some_has_members _ _ _ Hk)).
Qed.

(** The truthy branch, for a column of type date. *)
Lemma getValue_truthy_date row header key raw :
  get_prop header "key" = Some key →
  get_member row key = Some raw →
  truthy raw = true →
  get_prop header "type" = Some (VStr "date") →
  _getValue df row header
  = Some (RValue (if truthy_format df
                  then VStr (moment_format (moment raw) (default "" df))
                  else moment_toISOString (moment raw))).
Proof.
  intros Hk Hr Ht Hty. unfold _getValue. rewrite Hk. simpl. rewrite Hr. simpl.
  rewrite Ht, Hty. reflexivity.
Qed.

End FormatterFacts.

(** C4.  When the field read at [column.key] is absent or falsy,
    [_getValue] answers [column.default] if one is provided (it is neither
    [undefined] nor [null]) and the empty string otherwise; so a raw [0]
    or [""] with default ["N/A"] is shown as ["N/A"]. *)
Theorem getValue_fallback `{M : MomentLib} (df : option string)
    (row header key raw : value) :
  get_prop header "key" = Some key →
  get_member row key = Some raw →
  truthy raw = false →
  let dflt := prop header "default" in
  _getValue df row header = Some (RValue (if nullish dflt then VStr "" else dflt))
  ∧ (raw = VNum 0 ∨ raw = VStr "" →
     dflt = VStr "N/A" →
     _getValue df row header = Some (RValue (VStr "N/A"))).
Proof.
  intros Hk Hr Hf dflt.
  pose proof (getValue_falsy df row header key raw Hk Hr Hf) as H.
  split; [exact H|].
  intros _ Hd. rewrite H. subst dflt. by rewrite Hd.
Qed.

Lemma getValue_fallback_witness :
  _getValue (M := RefMoment.lib 0) None zero_row (na_column "text")
  = Some (RValue (VStr "N/A")).
Proof.
  refine (proj2 (getValue_fallback (M := RefMoment.lib 0) None zero_row
                   (na_column "text") (VStr "qty") (VNum 0) _ _ _) _ _).
  all: first [left; reflexivity | vm_compute; reflexivity].
Defined.

(** C10.  Whatever the type of the column, a field that is absent or
    falsy is answered by the fallback as a plain value: the result does
    not depend on the moment library or the date format, and it is
    neither [unsafeStatic] markup nor an image, since the test on the
    field comes before the dispatch on the type. *)
Theorem falsy_field_ignores_type (row header key raw ty : value) :
  get_prop header "key" = Some key →
  get_member row key = Some raw →
  truthy raw = false →
  get_prop header "type" = Some ty →
  let fallback := coalesce (prop header "default") (VStr "") in
  (∀ (M : MomentLib) (df : option string),
     _getValue df row header = Some (RValue fallback))
  ∧ (∀ (M : MomentLib) (df : option string) (x : value),
       _getValue df row header ≠ Some (RUnsafeStatic x)
       ∧ _getValue df row header ≠ Some (RImg x))
  ∧ (∀ (M1 M2 : MomentLib) (df1 df2 : option string),
       @_getValue M1 df1 row header = @_getValue M2 df2 row header).
Proof.
  intros Hk Hr Hf _ fallback.
  assert (H : ∀ (M : MomentLib) df,
             _getValue df row header = Some (RValue fallback)).
  { intros M df. by apply getValue_falsy with key raw. }
  split; [exact H|]. split.
  - intros M df x. rewrite H. split; discriminate.
  - intros M1 M2 df1 df2. by rewrite !H.
Qed.

Lemma falsy_field_ignores_type_witness :
  _getValue (M := RefMoment.lib 0) (Some "YYYY/MM/DD") zero_row (na_column "date")
  = Some (RValue (VStr "N/A"))
  ∧ _getValue (M := RefMoment.lib 0) None zero_row (na_column "html")
    = Some (RValue (VStr "N/A"))
  ∧ _getValue (M := RefMoment.lib 0) None zero_row (na_column "image")
    = Some (RValue (VStr "N/A")).
Proof.
  split; [|split].
  - refine (proj1 (falsy_field_ignores_type zero_row (na_column "date")
                     (VStr "qty") (VNum 0) (VStr "date") _ _ _ _) _ _);
      vm_compute; reflexivity.
  - refine (proj1 (falsy_field_ignores_type zero_row (na_column "html")
                     (VStr "qty") (VNum 0) (VStr "html") _ _ _ _) _ _);
      vm_compute; reflexivity.
  - refine (proj1 (falsy_field_ignores_type zero_row (na_column "image")
                     (VStr "qty") (VNum 0) (VStr "image") _ _ _ _) _ _);
      vm_compute; reflexivity.
Defined.

(** *** Dates *)

Lemma append_empty_r (s : string) : s +:+ "" = s.
Proof.
  induction s as [|c s IH]; [done|].
  change (String c (s +:+ "") = String c s). by f_equal.
Qed.

Lemma format_year_month_day (f : RefMoment.fields) :
  RefMoment.format_fields f "YYYY/MM/DD"
  = RefMoment.pad 4 (RefMoment.f_year f) +:+ "/"
      +:+ RefMoment.pad 2 (RefMoment.f_month f) +:+ "/"
      +:+ RefMoment.pad 2 (RefMoment.f_day f).
Proof. simpl. by rewrite append_empty_r. Qed.

Lemma fields_of_date (t y m d : Z) :
  RefMoment.civil_from_days (t / 86400000) = (y, m, d) →
  RefMoment.f_year (RefMoment.fields_of t) = y
  ∧ RefMoment.f_month (RefMoment.fields_of t) = m
  ∧ RefMoment.f_day (RefMoment.fields_of t) = d.
Proof. intros H. unfold RefMoment.fields_of. by rewrite H. Qed.

(** The instant of the example falls on 15 January 2024 in every zone at
    or ahead of UTC, and on 14 January in every zone behind it. *)
Lemma example_instant :
  RefMoment.parse (VStr "2024-01-15T00:00:00Z") = Some 1705276800000%Z.
Proof. vm_compute; reflexivity. Qed.

Lemma example_local_day (off : Z) :
  (-1440 ≤ off < 1440)%Z →
  RefMoment.format off (Some 1705276800000%Z) "YYYY/MM/DD"
  = if (0 <=? off)%Z then "2024/01/15" else "2024/01/14".
Proof.
  intros Hoff. unfold RefMoment.format. rewrite format_year_month_day.
  destruct (Z.leb_spec 0 off) as [Hpos|Hneg].
  - assert (Hq : ((1705276800000 + off * 60000) / 86400000 = 19737)%Z).
    { symmetry. apply Z.div_unique with (r := (off * 60000)%Z); lia. }
    destruct (fields_of_date (1705276800000 + off * 60000) 2024 1 15)
      as (-> & -> & ->); [rewrite Hq; vm_compute; reflexivity|].
    vm_compute; reflexivity.
  - assert (Hq : ((1705276800000 + off * 60000) / 86400000 = 19736)%Z).
    { symmetry. apply Z.div_unique with (r := (86400000 + off * 60000)%Z); lia. }
    destruct (fields_of_date (1705276800000 + off * 60000) 2024 1 14)
      as (-> & -> & ->); [rewrite Hq; vm_compute; reflexivity|].
    vm_compute; reflexivity.
Qed.

Lemma date_example_fields :
  get_prop date_column "key" = Some (VStr "when")
  ∧ get_member date_row (VStr "when") = Some (VStr "2024-01-15T00:00:00Z")
  ∧ get_prop date_column "type" = Some (VStr "date").
Proof. repeat split; vm_compute; reflexivity. Qed.

(** C5, as the code has it.  For a column of type date and a truthy
    raw value, [_getValue] formats the moment with the configured date
    format when one is set (a non-empty string) and gives the ISO-8601
    string otherwise.  The raw value ["2024-01-15T00:00:00Z"] without a
    date format gives ["2024-01-15T00:00:00.000Z"] in every time zone;
    with the format ["YYYY/MM/DD"] it gives the local calendar date:
    ["2024/01/15"] where local time is at or ahead of UTC, ["2024/01/14"]
    where it is behind. *)
Theorem getValue_date :
  (∀ (M : MomentLib) (df : option string) (row header key raw : value),
     get_prop header "key" = Some key →
     get_member row key = Some raw →
     truthy raw = true →
     get_prop header "type" = Some (VStr "date") →
     _getValue df row header
     = Some (RValue
               match df with
               | Some f => if String.eqb f "" then moment_toISOString (moment raw)
                           else VStr (moment_format (moment raw) f)
               | None => moment_toISOString (moment raw)
               end))
  ∧ (∀ off : Z,
       _getValue (M := RefMoment.lib off) None date_row date_column
       = Some (RValue (VStr "2024-01-15T00:00:00.000Z")))
  ∧ (∀ off : Z,
       (0 ≤ off < 1440)%Z →
       _getValue (M := RefMoment.lib off) (Some "YYYY/MM/DD") date_row date_column
       = Some (RValue (VStr "2024/01/15")))
  ∧ (∀ off : Z,
       (-1440 ≤ off < 0)%Z →
       _getValue (M := RefMoment.lib off) (Some "YYYY/MM/DD") date_row date_column
       = Some (RValue (VStr "2024/01/14"))).
Proof.
  destruct date_example_fields as (Hk & Hr & Hty).
  assert (Hloc : ∀ off : Z,
             (-1440 ≤ off < 1440)%Z →
             _getValue (M := RefMoment.lib off) (Some "YYYY/MM/DD")
               date_row date_column
             = Some (RValue (VStr (if (0 <=? off)%Z then "2024/01/15"
                                   else "2024/01/14")))).
  { intros off Hoff.
    rewrite (getValue_truthy_date (M := RefMoment.lib off) _ _ _ _ _ Hk Hr eq_refl Hty).
    match goal with |- _ = ?rhs =>
      change (Some (RValue (VStr (RefMoment.format off
                (RefMoment.parse (VStr "2024-01-15T00:00:00Z")) "YYYY/MM/DD")))
              = rhs)
    end.
    rewrite example_instant. by rewrite example_local_day. }
  split; [|split; [|split]].
  - intros M df row header key raw Hk' Hr' Ht' Hty'.
    rewrite (getValue_truthy_date df row header key raw Hk' Hr' Ht' Hty').
    destruct df as [f|]; [|done]. simpl. by destruct (String.eqb f "").
  - intros off.
    rewrite (getValue_truthy_date (M := RefMoment.lib off) _ _ _ _ _ Hk Hr eq_refl Hty).
    match goal with |- _ = ?rhs =>
      change (Some (RValue (RefMoment.toISOString
                (RefMoment.parse (VStr "2024-01-15T00:00:00Z")))) = rhs)
    end.
    rewrite example_instant. vm_compute; reflexivity.
  - intros off Hoff. rewrite Hloc by lia.
    by destruct (Z.leb_spec 0 off); [|lia].
  - intros off Hoff. rewrite Hloc by lia.
    by destruct (Z.leb_spec 0 off); [lia|].
Qed.

Lemma getValue_date_witness :
  _getValue (M := RefMoment.lib 120) (Some "YYYY/MM/DD") date_row date_column
  = Some (RValue (VStr "2024/01/15"))
  ∧ _getValue (M := RefMoment.lib (-480)) (Some "YYYY/MM/DD") date_row date_column
    = Some (RValue (VStr "2024/01/14")).
Proof.
  split.
  - apply (proj1 (proj2 (proj2 getValue_date)) 120%Z). lia.
  - apply (proj2 (proj2 (proj2 getValue_date)) (-480)%Z). lia.
Defined.

(** C5 as it is written does not hold in a time zone behind UTC: five
    hours behind, the example with format ["YYYY/MM/DD"] shows the 14th. *)
Lemma getValue_date_behind_utc :
  _getValue (M := RefMoment.lib (-300)) (Some "YYYY/MM/DD") date_row date_column
  ≠ Some (RValue (VStr "2024/01/15")).
Proof. vm_compute. discriminate. Qed.

(** ** Render Planner *)

Section RenderFacts.
Context `{M : MomentLib}.

Lemma headers_ok (sch : list value) :
  Forall has_members sch →
  mapM (fun h => Th <$> get_prop h "name") sch = Some (header_cells sch).
Proof.
  induction 1 as [|h sch Hh _ IH]; [done|].
  cbn. rewrite (get_prop_prop h "name" Hh). cbn.
  unfold header_cells in IH. by rewrite IH.
Qed.

Lemma getHeaders_ok (hidden : bool) (sch : list value) :
  Forall has_members sch →
  _getHeaders hidden sch
  = Some ((if hidden then [ThEmpty] else []) ++ header_cells sch).
Proof. intros H. unfold _getHeaders. by rewrite (headers_ok sch H). Qed.

Lemma cells_total {A} (df : option string) (row : value) (sch : list value)
    (wrap : rendered → A) :
  has_members row →
  Forall has_members sch →
  is_Some (mapM (fun header => v ← _getValue df row header; Some (wrap v)) sch).
Proof.
  intros Hr Hs. apply mapM_is_Some. eapply Forall_impl; [exact Hs|].
  intros h Hh. cbn. destruct (getValue_total df row h Hr Hh) as [v ->].
  by eexists.
Qed.

Lemma row_cells_total (df : option string) (hidden : bool) (sch : list value)
    (row : value) :
  Forall has_members sch → row_ok row →
  is_Some (row_cells df hidden sch row).
Proof.
  intros Hs Hr. unfold row_cells.
  assert (Hsimple : has_members row →
            is_Some (cells ← mapM (fun header =>
                                     v ← _getValue df row header;
                                     Some (Td None false (TdValue v))) sch;
                     Some ((if hidden then [Td None false TdEmpty] else [])
                             ++ cells))).
  { intros H.
    destruct (cells_total df row sch (fun v => Td None false (TdValue v)) H Hs)
      as [cs ->].
    by eexists. }
  destruct row as [p|subrows|fs]; [by apply Hsimple| |by apply Hsimple].
  cbn in Hr.
  assert (is_Some (mapM (fun p => subrow_cells df sch p.1 p.2)
                     (imap pair subrows))) as [cs ->]; [|by eexists].
  apply mapM_is_Some, Forall_forall. intros [i x] Hin.
  apply elem_of_lookup_imap in Hin as (j & y & Heq & Hj).
  injection Heq as -> ->. cbn. unfold subrow_cells.
  assert (has_members y) as Hy.
  { rewrite Forall_forall in Hr. apply Hr. by eapply list_elem_of_lookup_2. }
  destruct (cells_total df y sch
              (fun v => Td (Some (if bool_decide (j = 0%nat) then ""
                                  else "subrow hidden")) false (TdValue v))
              Hy Hs) as [cs ->].
  by eexists.
Qed.

Lemma getRows_total (df : option string) (hidden : bool) (sch D : list value) :
  Forall has_members sch → Forall row_ok D →
  is_Some (_getRows df hidden sch D).
Proof.
  intros Hs HD. unfold _getRows. destruct (length D =? 0)%nat; [by eexists|].
  apply mapM_is_Some. eapply Forall_impl; [exact HD|].
  intros row Hr. by apply row_cells_total.
Qed.

(** What [render] returns and leaves in the component, for a schema and
    rows whose members can be read. *)
Lemma render_ok (st : state) (D sch : list value) :
  read_slot st (data st) = Some (VArr D) →
  read_slot st (schema st) = Some (VArr sch) →
  Forall has_members sch →
  Forall row_ok D →
  let hidden := existsb isArray D in
  ∃ rows,
    _getRows (dateFormat st) hidden sch D = Some rows
    ∧ render st
      = Some (Template ((if hidden then [ThEmpty] else []) ++ header_cells sch)
                rows (VNum (Z.of_nat (length D))),
              set_gridtemplate (grid_css (Grid hidden (length sch)))
                (set_hasHiddenRows hidden st)).
Proof.
  intros Hd Hsch Hs HD hidden.
  destruct (getRows_total (dateFormat st) hidden sch D Hs HD) as [rows Hrows].
  exists rows. split; [exact Hrows|].
  unfold render. rewrite Hd. cbn.
  change (read_slot (set_hasHiddenRows (existsb isArray D) st) (schema st))
    with (read_slot st (schema st)).
  rewrite Hsch. cbn. fold hidden.
  rewrite (getHeaders_ok hidden sch Hs). cbn.
  rewrite Hrows. reflexivity.
Qed.

End RenderFacts.

Lemma existsb_isArray (D : list value) :
  existsb isArray D = true ↔ ∃ row : value, row ∈ D ∧ isArray row = true.
Proof.
  rewrite existsb_exists. split; intros (row & Hin & Hrow); exists row;
    (split; [by apply list_elem_of_In|done]).
Qed.

Lemma table_state_reads (D sch : list value) :
  read_slot (table_state D sch) (data (table_state D sch)) = Some (VArr D)
  ∧ read_slot (table_state D sch) (schema (table_state D sch)) = Some (VArr sch).
Proof. split; reflexivity. Qed.

(** C2.  [render] sets [hasHiddenRows] to true exactly when some
    top-level element of the data is an array, and gives
    [--gridtemplate] one [1fr] column per schema entry, with one leading
    [1rem] column exactly when [hasHiddenRows] is true. *)
Theorem render_layout `{M : MomentLib} (st : state) (D sch : list value) :
  read_slot st (data st) = Some (VArr D) →
  read_slot st (schema st) = Some (VArr sch) →
  Forall has_members sch →
  Forall row_ok D →
  ∃ tpl st',
    render st = Some (tpl, st')
    ∧ (hasHiddenRows st' = true ↔ ∃ row : value, row ∈ D ∧ isArray row = true)
    ∧ gridtemplate st' = Some (grid_css (Grid (hasHiddenRows st') (length sch)))
    ∧ columns (Grid (hasHiddenRows st') (length sch))
      = (length sch + if hasHiddenRows st' then 1 else 0)%nat.
Proof.
  intros Hd Hsch Hs HD.
  destruct (render_ok st D sch Hd Hsch Hs HD) as (rows & _ & Hr).
  eexists _, _. split; [exact Hr|]. cbn. split; [apply existsb_isArray|].
  split; [done|]. unfold columns. cbn. destruct (existsb isArray D); lia.
Qed.

Lemma render_layout_witness :
  ∃ tpl st',
    render (M := RefMoment.lib 0)
      (table_state [simple_row; grouped_row] [name_column; qty_column])
    = Some (tpl, st')
    ∧ hasHiddenRows st' = true
    ∧ gridtemplate st' = Some "1rem repeat(2, 1fr)".
Proof.
  destruct (render_layout (M := RefMoment.lib 0)
              (table_state [simple_row; grouped_row] [name_column; qty_column])
              [simple_row; grouped_row] [name_column; qty_column])
    as (tpl & st' & Hr & Hiff & Hg & _).
  - reflexivity.
  - reflexivity.
  - repeat constructor.
  - repeat constructor.
  - assert (hasHiddenRows st' = true) as Hh.
    { apply Hiff. exists grouped_row. split; [|reflexivity].
      apply list_elem_of_In. right. left. reflexivity. }
    exists tpl, st'. split; [exact Hr|]. split; [exact Hh|].
    rewrite Hg, Hh. vm_compute. reflexivity.
Defined.

Lemma filter_header_cells (sch : list value) :
  List.filter (fun c => negb (is_placeholder c)) (header_cells sch)
  = header_cells sch.
Proof. induction sch as [|h sch IH]; [done|]. cbn. f_equal. exact IH. Qed.

(** C3.  The header row holds one header cell per schema entry, in the
    order of the schema and showing its [name], whatever the data; the
    only other cell is the empty placeholder that comes before them when
    the data has a grouped row. *)
Theorem render_header_cells `{M : MomentLib} (st : state) (D sch : list value) :
  read_slot st (data st) = Some (VArr D) →
  read_slot st (schema st) = Some (VArr sch) →
  Forall has_members sch →
  Forall row_ok D →
  ∃ tpl st',
    render st = Some (tpl, st')
    ∧ List.filter (fun c => negb (is_placeholder c)) (thead tpl) = header_cells sch
    ∧ length (header_cells sch) = length sch
    ∧ (∀ (i : nat) (h : value),
         sch !! i = Some h → header_cells sch !! i = Some (Th (prop h "name")))
    ∧ thead tpl
      = (if existsb isArray D then [ThEmpty] else []) ++ header_cells sch.
Proof.
  intros Hd Hsch Hs HD.
  destruct (render_ok st D sch Hd Hsch Hs HD) as (rows & _ & Hr).
  eexists _, _. split; [exact Hr|]. cbn.
  pose proof (filter_header_cells sch) as Hf.
  split; [|split; [|split]].
  - rewrite List.filter_app, Hf. by destruct (existsb isArray D).
  - unfold header_cells. apply length_map.
  - intros i h Hi. unfold header_cells.
    change (map ?f ?l) with (f <$> l). by rewrite list_lookup_fmap, Hi.
  - reflexivity.
Qed.

Lemma render_header_cells_witness :
  ∃ tpl st',
    render (M := RefMoment.lib 0)
      (table_state [grouped_row; simple_row] [name_column; qty_column])
    = Some (tpl, st')
    ∧ List.filter (fun c => negb (is_placeholder c)) (thead tpl)
      = [Th (VStr "Name"); Th (VStr "Quantity")].
Proof.
  destruct (render_header_cells (M := RefMoment.lib 0)
              (table_state [grouped_row; simple_row] [name_column; qty_column])
              [grouped_row; simple_row] [name_column; qty_column])
    as (tpl & st' & Hr & Hf & _).
  - reflexivity.
  - reflexivity.
  - repeat constructor.
  - repeat constructor.
  - exists tpl, st'. split; [exact Hr|]. rewrite Hf. vm_compute. reflexivity.
Defined.

(** C6.  The footer shows the length of the data, the number of its
    top-level entries: a grouped row is one entry whatever the number of
    its sub-rows. *)
Theorem render_footer_count `{M : MomentLib} (st : state) (D sch : list value) :
  read_slot st (data st) = Some (VArr D) →
  read_slot st (schema st) = Some (VArr sch) →
  Forall has_members sch →
  Forall row_ok D →
  ∃ tpl st',
    render st = Some (tpl, st') ∧ tfoot tpl = VNum (Z.of_nat (length D)).
Proof.
  intros Hd Hsch Hs HD.
  destruct (render_ok st D sch Hd Hsch Hs HD) as (rows & _ & Hr).
  eexists _, _. split; [exact Hr|]. reflexivity.
Qed.

Lemma render_footer_count_witness :
  ∃ tpl st',
    render (M := RefMoment.lib 0)
      (table_state [grouped_row; simple_row] [name_column; qty_column])
    = Some (tpl, st')
    ∧ tfoot tpl = VNum 2.
Proof.
  apply (render_footer_count (M := RefMoment.lib 0)
           (table_state [grouped_row; simple_row] [name_column; qty_column])
           [grouped_row; simple_row] [name_column; qty_column]).
  - reflexivity.
  - reflexivity.
  - repeat constructor.
  - repeat constructor.
Defined.

(** C8.  For empty data [_getRows] returns the single row
    [nodata_row], one cell of class [nodata] with the message, and no
    data row; so does the body of the rendered table. *)
Theorem getRows_empty :
  (∀ (M : MomentLib) (df : option string) (hidden : bool) (sch : list value),
     _getRows df hidden sch [] = Some [nodata_row])
  ∧ (∀ (M : MomentLib) (st : state) (sch : list value),
       read_slot st (data st) = Some (VArr []) →
       read_slot st (schema st) = Some (VArr sch) →
       Forall has_members sch →
       ∃ tpl st', render st = Some (tpl, st') ∧ tbody tpl = [nodata_row]).
Proof.
  split; [reflexivity|].
  intros M st sch Hd Hsch Hs.
  destruct (render_ok st [] sch Hd Hsch Hs (List.Forall_nil _)) as (rows & Hrows & Hr).
  eexists _, _. split; [exact Hr|]. cbn. cbn in Hrows. congruence.
Qed.

Lemma getRows_empty_witness :
  ∃ tpl st',
    render (M := RefMoment.lib 0) (table_state [] [name_column; qty_column])
    = Some (tpl, st')
    ∧ tbody tpl
      = [[Td (Some "nodata") false (TdText "There is no data to show")]].
Proof.
  apply (proj2 getRows_empty (RefMoment.lib 0)
           (table_state [] [name_column; qty_column]) [name_column; qty_column]).
  - reflexivity.
  - reflexivity.
  - repeat constructor.
Defined.

(** ** Mutation Watcher *)

Lemma watch_callback_effects (eventName : string) (obj : ref) (st : state) :
  effects (watch_callback eventName obj st)
  = effects st ++ [Dispatched (CustomEvent eventName obj) (deref st obj);
                   UpdateRequested]
  ∧ heap (watch_callback eventName obj st) = heap st.
Proof. split; [|reflexivity]. cbn. by rewrite <- app_assoc. Qed.

Lemma mutate_watched_raw (id : nat) (eventName : string) (l : loc) (v : value)
    (m : mutation) (st : state) :
  heap st !! l = Some v →
  effects (mutate (Watched id eventName (Raw l)) m st)
  = effects st ++ [Dispatched (CustomEvent eventName (Raw l)) (Some (m v));
                   UpdateRequested]
  ∧ heap (mutate (Watched id eventName (Raw l)) m st) = <[l := m v]> (heap st).
Proof.
  intros Hl. cbn [mutate].
  destruct (watch_callback_effects eventName (Raw l)
              (set_heap (alter m l (heap st)) st)) as [-> ->].
  assert (alter m l (heap st) = <[l := m v]> (heap st)) as Halter.
  { apply map_eq. intros k. destruct (decide (l = k)) as [<-|Hne].
    - by rewrite lookup_alter_eq, lookup_insert_eq, Hl.
    - by rewrite lookup_alter_ne, lookup_insert_ne. }
  split; [|exact Halter].
  unfold deref. cbn. by rewrite Halter, lookup_insert_eq.
Qed.

Lemma mutate_all_watched_raw (id : nat) (eventName : string) (l : loc)
    (ms : list mutation) :
  ∀ (v : value) (st : state),
    heap st !! l = Some v →
    effects (mutate_all (Watched id eventName (Raw l)) ms st)
    = effects st
        ++ flat_map (fun c => [Dispatched (CustomEvent eventName (Raw l)) (Some c);
                               UpdateRequested])
             (successive v ms).
Proof.
  induction ms as [|m ms IH]; intros v st Hl; cbn [mutate_all foldl successive].
  - cbn. by rewrite app_nil_r.
  - destruct (mutate_watched_raw id eventName l v m st Hl) as [He Hh].
    fold (mutate_all (Watched id eventName (Raw l)) ms
            (mutate (Watched id eventName (Raw l)) m st)).
    rewrite (IH (m v)); [|by rewrite Hh, lookup_insert_eq].
    rewrite He. cbn [flat_map]. by rewrite <- app_assoc.
Qed.

Lemma successive_length (v : value) (ms : list mutation) :
  length (successive v ms) = length ms.
Proof. revert v. induction ms as [|m ms IH]; intros v; cbn; [done|by rewrite IH]. Qed.

Lemma constructor_ok (h : gmap loc value) (n : nat) :
  let ld := fresh (dom h) in
  let ls := fresh (dom (<[ld := VArr []]> h)) in
  constructor h n
  = Some (State (SRef (Watched n "data-change" (Raw ld)))
                (SRef (Watched (S n) "schema-change" (Raw ls)))
                None false None
                (<[ls := VArr []]> (<[ld := VArr []]> h)) (S (S n)) []).
Proof. reflexivity. Qed.

Lemma constructor_arrays (h : gmap loc value) (n : nat) :
  ∃ (st : state) (ld ls : loc),
    constructor h n = Some st
    ∧ data st = SRef (Watched n "data-change" (Raw ld))
    ∧ schema st = SRef (Watched (S n) "schema-change" (Raw ls))
    ∧ h !! ld = None ∧ h !! ls = None ∧ ld ≠ ls
    ∧ heap st !! ld = Some (VArr []) ∧ heap st !! ls = Some (VArr [])
    ∧ next_proxy st = S (S n) ∧ effects st = [].
Proof.
  pose proof (constructor_ok h n) as Hc. cbn zeta in Hc.
  set (ld := fresh (dom h)) in *.
  set (ls := fresh (dom (<[ld := VArr []]> h))) in *.
  assert (h !! ld = None) as Hld.
  { apply not_elem_of_dom. apply is_fresh. }
  assert (<[ld := VArr []]> h !! ls = None) as Hls.
  { apply not_elem_of_dom. apply is_fresh. }
  assert (ld ≠ ls) as Hne.
  { intros Heq. rewrite <- Heq, lookup_insert_eq in Hls. discriminate. }
  eexists _, ld, ls. split; [exact Hc|]. cbn.
  repeat split; try done.
  - by rewrite lookup_insert_ne in Hls.
  - by rewrite lookup_insert_ne, lookup_insert_eq.
  - by rewrite lookup_insert_eq.
Qed.

Lemma willUpdate_data (st : state) :
  willUpdate {["data"]} st
  = if truthy_slot (data st)
    then '(d, st') ← _watchObject (data st) "data-change" st; Some (set_data d st')
    else Some st.
Proof.
  unfold willUpdate.
  rewrite (bool_decide_eq_true_2 ("data" ∈ ({["data"]} : gset string)))
    by set_solver.
  cbn [andb].
  destruct (truthy_slot (data st)); cbn.
  - destruct (_watchObject (data st) "data-change" st) as [[d st']|]; [|done].
    cbn. by rewrite (bool_decide_eq_false_2 ("schema" ∈ ({["data"]} : gset string)))
      by set_solver.
  - by rewrite (bool_decide_eq_false_2 ("schema" ∈ ({["data"]} : gset string)))
      by set_solver.
Qed.

Lemma willUpdate_schema (st : state) :
  willUpdate {["schema"]} st
  = if truthy_slot (schema st)
    then '(s, st') ← _watchObject (schema st) "schema-change" st;
         Some (set_schema s st')
    else Some st.
Proof.
  unfold willUpdate.
  rewrite (bool_decide_eq_false_2 ("data" ∈ ({["schema"]} : gset string)))
    by set_solver.
  cbn [andb mbind option_bind].
  by rewrite (bool_decide_eq_true_2 ("schema" ∈ ({["schema"]} : gset string)))
    by set_solver.
Qed.

(** A value behind one wrapper.  The callback of a wrapper dispatches
    one event, named as at wrap time and carrying the object given at
    wrap time, and then requests one update.  For a wrapper made by
    [_watchObject] around an object of the heap that has no wrapper yet,
    each mutation adds exactly that pair, the listeners seeing the
    content of the object after the mutation, and [ms] consecutive
    mutations add [length ms] pairs, one after the other. *)
Lemma single_wrapper_notifies_once (st : state) (eventName : string)
    (l : loc) (v : value) :
  heap st !! l = Some v →
  ∃ (w : ref) (st1 : state),
    _watchObject (SRef (Raw l)) eventName st = Some (SRef w, st1)
    ∧ (∀ (obj : ref) (s : state),
         effects (watch_callback eventName obj s)
         = effects s ++ [Dispatched (CustomEvent eventName obj) (deref s obj);
                         UpdateRequested])
    ∧ (∀ m : mutation,
         effects (mutate w m st1)
         = effects st ++ [Dispatched (CustomEvent eventName (Raw l)) (Some (m v));
                          UpdateRequested]
         ∧ deref (mutate w m st1) (Raw l) = Some (m v))
    ∧ (∀ ms : list mutation,
         effects (mutate_all w ms st1)
         = effects st
             ++ flat_map (fun c => [Dispatched (CustomEvent eventName (Raw l))
                                      (Some c);
                                    UpdateRequested])
                  (successive v ms)
         ∧ length (successive v ms) = length ms).
Proof.
  intros Hl. eexists _, _. split; [reflexivity|].
  split; [intros obj s; apply watch_callback_effects|]. split.
  - intros m.
    destruct (mutate_watched_raw (next_proxy st) eventName l v m
                (set_next_proxy (S (next_proxy st)) st) Hl) as [He Hh].
    split; [exact He|]. unfold deref. cbn [root]. rewrite Hh.
    apply lookup_insert_eq.
  - intros ms. split; [|apply successive_length].
    by apply (mutate_all_watched_raw (next_proxy st) eventName l ms v
                (set_next_proxy (S (next_proxy st)) st)).
Qed.

(** Pushing one row to the data of a new component before its first
    update, while one wrapper is in place: one [data-change] event, one
    update request, and the next rendering counts one record. *)
Example push_to_default_data :
  let st := default (blank ∅ 0) (constructor ∅ 0) in
  let w := Watched 0 "data-change" (Raw 0%nat) in
  constructor ∅ 0 = Some st
  ∧ data st = SRef w
  ∧ effects (mutate w (push simple_row) st)
    = [Dispatched (CustomEvent "data-change" (Raw 0%nat))
         (Some (VArr [simple_row]));
       UpdateRequested]
  ∧ (fun r => tfoot r.1)
      <$> render (M := RefMoment.lib 0) (mutate w (push simple_row) st)
    = Some (VNum 1).
Proof. vm_compute. repeat split. Qed.

Lemma watch_callback_fields (eventName : string) (obj : ref) (st : state) :
  data (watch_callback eventName obj st) = data st
  ∧ schema (watch_callback eventName obj st) = schema st
  ∧ dateFormat (watch_callback eventName obj st) = dateFormat st
  ∧ next_proxy (watch_callback eventName obj st) = next_proxy st.
Proof. done. Qed.

Lemma mutate_fields (r : ref) (m : mutation) (st : state) :
  data (mutate r m st) = data st
  ∧ schema (mutate r m st) = schema st
  ∧ dateFormat (mutate r m st) = dateFormat st
  ∧ next_proxy (mutate r m st) = next_proxy st.
Proof.
  induction r as [l|id eventName obj IH]; [done|].
  cbn [mutate]. destruct IH as (? & ? & ? & ?).
  destruct (watch_callback_fields eventName obj (mutate obj m st))
    as (-> & -> & -> & ->).
  done.
Qed.




(** *** The identities of the wrappers

    Every wrapper gets the number [next_proxy] of its time, and
    [next_proxy] only grows: the wrappers the component can reach always
    have numbers below it. *)













(** ** Expansion toggle *)

Lemma elem_of_toggle (tok t : string) (cl : list string) :
  t ∈ toggle tok cl ↔ if decide (t = tok) then t ∉ cl else t ∈ cl.
Proof.
  unfold toggle. destruct (decide (t = tok)) as [->|Hne].
  - case_bool_decide as Hin.
    + rewrite list_elem_of_filter. split; [intros [Hneq _]; done|done].
    + rewrite elem_of_app, list_elem_of_singleton. split; [done|by right].
  - case_bool_decide as Hin.
    + rewrite list_elem_of_filter. split; [by intros [_ ?]|done].
    + rewrite elem_of_app, list_elem_of_singleton. split; [|by left].
      by intros [?|?].
Qed.

(** The cell at a position of the row after the click. *)
Lemma toggled_row_lookup (row : list cell) (j k : nat) (c : cell) :
  row !! k = Some c →
  alter (toggle_class "expanded") j (toggle_subrows row) !! k
  = Some ((if bool_decide (k = j) then toggle_class "expanded" else id)
            ((if has_class "subrow" c then toggle_class "hidden" else id) c)).
Proof.
  intros Hk. rewrite list_lookup_alter. unfold toggle_subrows.
  change (map ?f ?l) with (f <$> l). rewrite !list_lookup_fmap.
  destruct (decide (j = k)) as [->|Hne].
  - rewrite Hk, bool_decide_eq_true_2 by done. cbn.
    by destruct (has_class "subrow" c).
  - rewrite Hk, bool_decide_eq_false_2 by done. cbn.
    by destruct (has_class "subrow" c).
Qed.

(** C9.  A click on the cell [j] of row [i] leaves every other row as
    it is; in row [i] it flips [hidden] on exactly the cells of class
    [subrow], flips [expanded] on the clicked cell only, and changes no
    other class and no content. *)
Theorem toggle_expand_click (rows : list (list cell)) (i j : nat)
    (row : list cell) (expander : cell) :
  rows !! i = Some row →
  row !! j = Some expander →
  ∃ (rows' : list (list cell)) (row' : list cell),
    _handleToggleExpandClick i j rows = Some rows'
    ∧ length rows' = length rows
    ∧ (∀ i' : nat, i' ≠ i → rows' !! i' = rows !! i')
    ∧ rows' !! i = Some row'
    ∧ length row' = length row
    ∧ (∀ (k : nat) (c : cell),
         row !! k = Some c →
         ∃ c' : cell,
           row' !! k = Some c'
           ∧ cell_body c' = cell_body c
           ∧ ("hidden" ∈ classList c'
              ↔ if has_class "subrow" c then "hidden" ∉ classList c
                else "hidden" ∈ classList c)
           ∧ ("expanded" ∈ classList c'
              ↔ if bool_decide (k = j) then "expanded" ∉ classList c
                else "expanded" ∈ classList c)
           ∧ (∀ tok : string,
                tok ≠ "hidden" → tok ≠ "expanded" →
                tok ∈ classList c' ↔ tok ∈ classList c)).
Proof.
  intros Hi Hj.
  exists (<[i := alter (toggle_class "expanded") j (toggle_subrows row)]> rows),
         (alter (toggle_class "expanded") j (toggle_subrows row)).
  split; [unfold _handleToggleExpandClick; rewrite Hi; cbn; by rewrite Hj|].
  split; [apply length_insert|].
  split; [intros i' Hne; by apply list_lookup_insert_ne|].
  split; [apply list_lookup_insert_eq; by eapply lookup_lt_Some|].
  split; [unfold toggle_subrows; by rewrite length_alter, length_map|].
  intros k c Hk. eexists. split; [by apply toggled_row_lookup|].
  destruct (has_class "subrow" c) eqn:Hsub;
    case_bool_decide as Hkj; cbn;
    (split; [done|split; [|split]]); intros; try done;
    repeat (rewrite elem_of_toggle; case_decide; try done).
Qed.

Lemma toggle_expand_click_witness :
  ∃ rows' : list (list cell),
    _handleToggleExpandClick 1 0 two_groups_dom = Some rows'
    ∧ rows' !! 0%nat = two_groups_dom !! 0%nat.
Proof.
  destruct (toggle_expand_click two_groups_dom 1 0
              [plain_cell ["expander"]; value_cell [] "box";
               plain_cell ["subrow"; "hidden"];
               value_cell ["subrow"; "hidden"] "lid"]
              (plain_cell ["expander"]) eq_refl eq_refl)
    as (rows' & row' & Hc & _ & Hother & _).
  exists rows'. split; [exact Hc|]. apply Hother. discriminate.
Defined.

(** The body rendered for two grouped rows is [two_groups_dom], and a
    click on the second expander shows the sub-row of the second group
    only. *)
Example click_second_expander :
  dom_of_rows <$> _getRows (M := RefMoment.lib 0) None true [name_column] two_groups
  = Some two_groups_dom
  ∧ _handleToggleExpandClick 1 0 two_groups_dom
    = Some [[plain_cell ["expander"]; value_cell [] "kit";
             plain_cell ["subrow"; "hidden"];
             value_cell ["subrow"; "hidden"] "nut"];
            [plain_cell ["expander"; "expanded"]; value_cell [] "box";
             plain_cell ["subrow"]; value_cell ["subrow"] "lid"]].
Proof. split; vm_compute; reflexivity. Qed.

(** * Further results *)

(** ** Value Formatter: errors and the types other than date *)

Lemma get_prop_nullish (v : value) (k : string) :
  nullish v = true → get_prop v k = None.
Proof. destruct v as [[]| |]; cbn; done. Qed.

Lemma nullish_has_members (v : value) : nullish v = false ↔ has_members v.
Proof. reflexivity. Qed.

Lemma strict_eq_str_spec (v : value) (s : string) :
  strict_eq_str v s = true ↔ v = VStr s.
Proof.
  destruct v as [[]| |]; cbn; try (split; [discriminate|intros [=]]).
  rewrite String.eqb_eq. split; [by intros ->|by intros [= ->]].
Qed.

(** X1.  For a column descriptor whose key is a primitive (a string, a
    number, or none at all), [_getValue] raises exactly when the row or
    the descriptor is [undefined] or [null]; for every other row and
    descriptor it returns a value. *)
Theorem getValue_raises_iff `{M : MomentLib} (df : option string)
    (row header : value) (k : prim) :
  prop header "key" = VPrim k →
  _getValue df row header = None ↔ nullish row = true ∨ nullish header = true.
Proof.
  intros _. split.
  - intros Hnone. destruct (nullish row) eqn:Hr; [by left|].
    destruct (nullish header) eqn:Hh; [by right|].
    destruct (getValue_total df row header Hr Hh) as [x Hx]. congruence.
  - intros H. unfold _getValue, get_member.
    destruct (nullish header) eqn:Hh.
    + by rewrite (get_prop_nullish header "key" Hh).
    + destruct H as [Hr|?]; [|done].
      rewrite (get_prop_prop header "key" Hh). cbn.
      by rewrite (get_prop_nullish row _ Hr).
Qed.

Lemma getValue_raises_iff_witness :
  _getValue (M := RefMoment.lib 0) None (VPrim PNull) name_column = None.
Proof.
  apply (proj2 (getValue_raises_iff (M := RefMoment.lib 0) None (VPrim PNull)
                  name_column (PStr "name") ltac:(vm_compute; reflexivity))).
  left. reflexivity.
Defined.

(** X2.  For a truthy field and a type other than the string [date],
    [_getValue] hands the field on unchanged: wrapped by [unsafeStatic]
    when the type is the string [html], as the source of an image when
    it is the string [image], and as a plain value for every other type,
    a missing one included. *)
Theorem getValue_keeps_raw `{M : MomentLib} (df : option string)
    (row header key raw ty : value) :
  get_prop header "key" = Some key →
  get_member row key = Some raw →
  truthy raw = true →
  get_prop header "type" = Some ty →
  ty ≠ VStr "date" →
  (ty = VStr "html" → _getValue df row header = Some (RUnsafeStatic raw))
  ∧ (ty = VStr "image" → _getValue df row header = Some (RImg raw))
  ∧ (ty ≠ VStr "html" → ty ≠ VStr "image" →
     _getValue df row header = Some (RValue raw)).
Proof.
  intros Hk Hr Ht Hty Hdate.
  assert (strict_eq_str ty "date" = false) as Hd.
  { destruct (strict_eq_str ty "date") eqn:E; [|done].
    by apply strict_eq_str_spec in E. }
  unfold _getValue. rewrite Hk. cbn. rewrite Hr. cbn. rewrite Ht, Hty. cbn.
  rewrite Hd. split; [|split].
  - by intros ->.
  - by intros ->.
  - intros Hh Hi.
    destruct (strict_eq_str ty "html") eqn:E1;
      [by apply strict_eq_str_spec in E1|].
    destruct (strict_eq_str ty "image") eqn:E2;
      [by apply strict_eq_str_spec in E2|done].
Qed.

Lemma getValue_keeps_raw_witness :
  _getValue (M := RefMoment.lib 0) None simple_row html_column
  = Some (RUnsafeStatic (VStr "bolt"))
  ∧ _getValue (M := RefMoment.lib 0) None simple_row name_column
    = Some (RValue (VStr "bolt")).
Proof.
  split.
  - refine (proj1 (getValue_keeps_raw (M := RefMoment.lib 0) None simple_row
                     html_column (VStr "name") (VStr "bolt") (VStr "html")
                     _ _ _ _ _) _);
      first [discriminate | vm_compute; reflexivity].
  - refine (proj2 (proj2 (getValue_keeps_raw (M := RefMoment.lib 0) None
                            simple_row name_column (VStr "name") (VStr "bolt")
                            VUndef _ _ _ _ _)) _ _);
      first [discriminate | vm_compute; reflexivity].
Defined.

(** ** Render Planner: what [render] reads, writes and refuses *)

Section RenderMore.
Context `{M : MomentLib}.

(** [render] from its parts. *)
Lemma render_intro (st : state) (D sch : list value) (hs : list th)
    (rows : list (list td)) :
  read_slot st (data st) = Some (VArr D) →
  read_slot st (schema st) = Some (VArr sch) →
  _getHeaders (existsb isArray D) sch = Some hs →
  _getRows (dateFormat st) (existsb isArray D) sch D = Some rows →
  render st
  = Some (Template hs rows (VNum (Z.of_nat (length D))),
          set_gridtemplate (grid_css (Grid (existsb isArray D) (length sch)))
            (set_hasHiddenRows (existsb isArray D) st)).
Proof.
  intros Hd Hs Hh Hr. unfold render. rewrite Hd. cbn.
  change (read_slot (set_hasHiddenRows (existsb isArray D) st) (schema st))
    with (read_slot st (schema st)).
  rewrite Hs. cbn. rewrite Hh. cbn. rewrite Hr. reflexivity.
Qed.

Lemma render_inv (st st' : state) (tpl : template) :
  render st = Some (tpl, st') →
  ∃ D sch : list value,
    read_slot st (data st) = Some (VArr D)
    ∧ read_slot st (schema st) = Some (VArr sch)
    ∧ _getHeaders (existsb isArray D) sch = Some (thead tpl)
    ∧ _getRows (dateFormat st) (existsb isArray D) sch D = Some (tbody tpl)
    ∧ tfoot tpl = VNum (Z.of_nat (length D))
    ∧ st' = set_gridtemplate (grid_css (Grid (existsb isArray D) (length sch)))
              (set_hasHiddenRows (existsb isArray D) st).
Proof.
  unfold render. intros H.
  destruct (read_slot st (data st)) as [dv|] eqn:Hd; [|done].
  destruct dv as [p|D|fs]; try done. cbn [mbind option_bind as_array] in H.
  change (read_slot (set_hasHiddenRows (existsb isArray D) st)
            (schema (set_hasHiddenRows (existsb isArray D) st)))
    with (read_slot st (schema st)) in H.
  destruct (read_slot st (schema st)) as [sv|] eqn:Hs; [|done].
  cbn [mbind option_bind] in H.
  destruct (get_prop sv "length") as [n|] eqn:Hn; [|done].
  cbn [mbind option_bind] in H.
  destruct sv as [p|sch|fs]; try done. cbn [as_array mbind option_bind] in H.
  cbn [hasHiddenRows set_gridtemplate set_hasHiddenRows dateFormat] in H.
  destruct (_getHeaders (existsb isArray D) sch) as [hs|] eqn:Hh; [|done].
  cbn [mbind option_bind] in H.
  destruct (_getRows (dateFormat st) (existsb isArray D) sch D) as [rows|] eqn:Hr;
    [|done].
  cbn in Hn. injection Hn as <-. cbn in H. injection H as <- <-.
  exists D, sch. done.
Qed.

End RenderMore.

Section RenderLaws.
Context `{M : MomentLib}.

Lemma getValue_nullish (df : option string) (row header : value) :
  nullish row = true ∨ nullish header = true → _getValue df row header = None.
Proof.
  intros H. unfold _getValue, get_member.
  destruct (nullish header) eqn:Hh.
  - by rewrite (get_prop_nullish header "key" Hh).
  - destruct H as [Hr|?]; [|done].
    rewrite (get_prop_prop header "key" Hh). cbn.
    by rewrite (get_prop_nullish row _ Hr).
Qed.

Lemma getHeaders_length (hidden : bool) (sch : list value) (hs : list th) :
  _getHeaders hidden sch = Some hs →
  length hs = ((if hidden then 1 else 0) + length sch)%nat.
Proof.
  unfold _getHeaders. intros H.
  destruct (mapM (fun h => Th <$> get_prop h "name") sch) as [ths|] eqn:Hm;
    [|done].
  cbn in H. injection H as <-. apply length_mapM in Hm.
  rewrite length_app, Hm. by destruct hidden.
Qed.

Lemma subrow_cells_length (df : option string) (sch : list value) (index : nat)
    (subrow : value) (cells : list td) :
  subrow_cells df sch index subrow = Some cells →
  length cells = S (length sch).
Proof.
  unfold subrow_cells. intros H.
  match type of H with
  | context [mapM ?f sch] => destruct (mapM f sch) as [cs|] eqn:Hm; [|done]
  end.
  cbn in H. injection H as <-. apply length_mapM in Hm. cbn. by rewrite Hm.
Qed.

Lemma concat_length_uniform {A} (n : nat) (ls : list (list A)) :
  Forall (fun l => length l = n) ls → length (concat ls) = (length ls * n)%nat.
Proof.
  induction 1 as [|l ls Hl _ IH]; [done|].
  cbn. rewrite length_app, IH, Hl. done.
Qed.

Lemma row_cells_length (df : option string) (hidden : bool) (sch : list value)
    (row : value) (cells : list td) :
  row_cells df hidden sch row = Some cells →
  length cells
  = match row with
    | VArr subrows => (length subrows * S (length sch))%nat
    | _ => ((if hidden then 1 else 0) + length sch)%nat
    end.
Proof.
  assert (Hsimple : ∀ r,
            (cs ← mapM (fun header =>
                          v ← _getValue df r header;
                          Some (Td None false (TdValue v))) sch;
             Some ((if hidden then [Td None false TdEmpty] else []) ++ cs))
            = Some cells →
            length cells = ((if hidden then 1 else 0) + length sch)%nat).
  { intros r H.
    match type of H with
    | context [mapM ?f sch] => destruct (mapM f sch) as [cs|] eqn:Hm; [|done]
    end.
    cbn in H. injection H as <-. apply length_mapM in Hm.
    rewrite length_app, Hm. by destruct hidden. }
  destruct row as [p|subrows|fs]; cbn [row_cells]; [apply Hsimple| |apply Hsimple].
  intros H.
  destruct (mapM (fun p => subrow_cells df sch p.1 p.2) (imap pair subrows))
    as [cs|] eqn:Hm; [|done].
  cbn in H. injection H as <-.
  pose proof (length_mapM _ _ _ Hm) as Hlen. rewrite length_imap in Hlen.
  rewrite Hlen. apply concat_length_uniform.
  apply mapM_Some in Hm. apply Forall_lookup. intros j c Hc.
  destruct (Forall2_lookup_r _ _ _ j c Hm Hc) as ([i x] & _ & Hsc).
  by apply subrow_cells_length in Hsc.
Qed.

(** X3.  Whenever [render] returns, it has written [hasHiddenRows] and
    [--gridtemplate] and nothing else: the data, the schema, the date
    format, the heap and the effects are as before (no event, no update
    request), and rendering again gives the same template and state. *)
Theorem render_writes_layout_only (st st' : state) (tpl : template) :
  render st = Some (tpl, st') →
  data st' = data st ∧ schema st' = schema st
  ∧ dateFormat st' = dateFormat st ∧ heap st' = heap st
  ∧ next_proxy st' = next_proxy st ∧ effects st' = effects st
  ∧ render st' = Some (tpl, st').
Proof.
  intros H.
  destruct (render_inv st st' tpl H) as (D & sch & Hd & Hs & Hh & Hr & Hf & ->).
  repeat (split; [reflexivity|]).
  pose proof (render_intro
                (set_gridtemplate
                   (grid_css (Grid (existsb isArray D) (length sch)))
                   (set_hasHiddenRows (existsb isArray D) st))
                D sch (thead tpl) (tbody tpl) Hd Hs Hh Hr) as H2.
  rewrite H2, <- Hf. by destruct tpl.
Qed.

(** X4.  The rendered rows fit the grid: the header row has as many
    cells as [--gridtemplate] has columns, the body of non-empty data has
    one row per top-level entry, a simple row has one cell per column,
    and a grouped row has one full line of cells per element. *)
Theorem render_fits_grid (st : state) (D sch : list value) :
  read_slot st (data st) = Some (VArr D) →
  read_slot st (schema st) = Some (VArr sch) →
  Forall has_members sch →
  Forall row_ok D →
  ∃ (tpl : template) (st' : state) (g : grid_template),
    render st = Some (tpl, st')
    ∧ gridtemplate st' = Some (grid_css g)
    ∧ length (thead tpl) = columns g
    ∧ (D ≠ [] →
       length (tbody tpl) = length D
       ∧ ∀ (i : nat) (row : value) (cells : list td),
           D !! i = Some row →
           tbody tpl !! i = Some cells →
           length cells = (row_height row * columns g)%nat).
Proof.
  intros Hd Hs Hsch HD.
  destruct (render_ok st D sch Hd Hs Hsch HD) as (rows & Hrows & Hr).
  eexists _, _, (Grid (existsb isArray D) (length sch)).
  split; [exact Hr|]. split; [reflexivity|]. cbn [thead tbody]. split.
  - rewrite length_app. unfold header_cells. rewrite length_map.
    unfold columns. cbn. by destruct (existsb isArray D).
  - intros Hne.
    assert (Hgroup : ∀ subrows : list value,
              VArr subrows ∈ D → existsb isArray D = true).
    { intros subrows Hin. apply existsb_isArray. by exists (VArr subrows). }
    unfold columns. cbn [leading_1rem repeat_1fr].
    destruct (existsb isArray D) eqn:Hhid;
      unfold _getRows in Hrows;
      (destruct D as [|row0 D0]; [done|]); cbn [length Nat.eqb] in Hrows;
      pose proof (length_mapM _ _ _ Hrows) as Hlen; (split; [done|]);
      intros i row cells Hi Hc; apply mapM_Some in Hrows;
      destruct (Forall2_lookup_l _ _ _ i row Hrows Hi) as (cells' & Hc' & Hcells);
      rewrite Hc in Hc'; injection Hc' as <-;
      rewrite (row_cells_length _ _ _ _ _ Hcells); unfold row_height;
      destruct row as [p|subrows|fs]; try lia.
    apply list_elem_of_lookup_2 in Hi. by specialize (Hgroup subrows Hi).
Qed.

(** X5.  [render] raises when the data or the schema is not an array.
    In particular the falsy value that an assignment leaves unwrapped
    makes the next rendering raise. *)
Theorem render_needs_arrays (st : state) :
  ((∀ D : list value, read_slot st (data st) ≠ Some (VArr D)) → render st = None)
  ∧ ((∀ sch : list value, read_slot st (schema st) ≠ Some (VArr sch)) →
     render st = None)
  ∧ (∀ p : prim,
       truthy_prim p = false →
       (∃ st' : state, assign_data (SPrim p) st = Some st' ∧ render st' = None)
       ∧ (∃ st' : state,
            assign_schema (SPrim p) st = Some st' ∧ render st' = None)).
Proof.
  assert (Hdata : ∀ s : state,
            (∀ D : list value, read_slot s (data s) ≠ Some (VArr D)) →
            render s = None).
  { intros s H. destruct (render s) as [[tpl s']|] eqn:Hr; [|done].
    destruct (render_inv s s' tpl Hr) as (D & _ & Hd & _). by destruct (H D). }
  assert (Hschema : ∀ s : state,
            (∀ sch : list value, read_slot s (schema s) ≠ Some (VArr sch)) →
            render s = None).
  { intros s H. destruct (render s) as [[tpl s']|] eqn:Hr; [|done].
    destruct (render_inv s s' tpl Hr) as (_ & sch & _ & Hs & _).
    by destruct (H sch). }
  split; [apply Hdata|]. split; [apply Hschema|].
  intros p Hp. split.
  - unfold assign_data.
    destruct (decide (SPrim p = data st)) as [Heq|Hne].
    + exists st. split; [reflexivity|]. apply Hdata. intros D.
      rewrite <- Heq. cbn. discriminate.
    + eexists. rewrite willUpdate_data. cbn. rewrite Hp.
      split; [reflexivity|]. apply Hdata. intros D. cbn. discriminate.
  - unfold assign_schema.
    destruct (decide (SPrim p = schema st)) as [Heq|Hne].
    + exists st. split; [reflexivity|]. apply Hschema. intros D.
      rewrite <- Heq. cbn. discriminate.
    + eexists. rewrite willUpdate_schema. cbn. rewrite Hp.
      split; [reflexivity|]. apply Hschema. intros D. cbn. discriminate.
Qed.

(** X6.  One unreadable entry aborts the whole rendering: [render]
    raises when a column descriptor is [undefined] or [null], and, for a
    schema that is not empty, when a simple row or an element of a
    grouped row is. *)
Theorem render_raises_on_null (st : state) (D sch : list value) :
  read_slot st (data st) = Some (VArr D) →
  read_slot st (schema st) = Some (VArr sch) →
  (∃ h : value, h ∈ sch ∧ nullish h = true)
  ∨ (sch ≠ [] ∧ ∃ row : value, row ∈ D ∧ nullish row = true)
  ∨ (sch ≠ [] ∧ ∃ (subrows : list value) (x : value),
       VArr subrows ∈ D ∧ x ∈ subrows ∧ nullish x = true) →
  render st = None.
Proof.
  intros Hd Hs Hbad.
  destruct (render st) as [[tpl st']|] eqn:Hr; [exfalso|done].
  destruct (render_inv st st' tpl Hr) as (D' & sch' & Hd' & Hs' & Hh & Hrows & _).
  rewrite Hd in Hd'. injection Hd' as <-. rewrite Hs in Hs'. injection Hs' as <-.
  destruct Hbad as [(h & Hin & Hn)|[(Hne & row & Hin & Hn)|(Hne & subrows & x & Hin & Hx & Hn)]].
  - unfold _getHeaders in Hh.
    destruct (mapM (fun h => Th <$> get_prop h "name") sch) as [ths|] eqn:Hm;
      [|done].
    apply mapM_Some in Hm. apply list_elem_of_lookup in Hin as [i Hi].
    destruct (Forall2_lookup_l _ _ _ i h Hm Hi) as (y & _ & Hy).
    by rewrite (get_prop_nullish h "name" Hn) in Hy.
  - unfold _getRows in Hrows. destruct D as [|row0 D0]; [by inversion Hin|].
    cbn [length Nat.eqb] in Hrows. apply mapM_Some in Hrows.
    apply list_elem_of_lookup in Hin as [i Hi].
    destruct (Forall2_lookup_l _ _ _ i row Hrows Hi) as (cells & _ & Hc).
    destruct sch as [|h sch0]; [done|].
    assert (_getValue (dateFormat st) row h = None) as Hv.
    { apply getValue_nullish. by left. }
    destruct row as [[]| |]; try done; cbn in Hc; by rewrite Hv in Hc.
  - unfold _getRows in Hrows. destruct D as [|row0 D0]; [by inversion Hin|].
    cbn [length Nat.eqb] in Hrows. apply mapM_Some in Hrows.
    apply list_elem_of_lookup in Hin as [i Hi].
    destruct (Forall2_lookup_l _ _ _ i _ Hrows Hi) as (cells & _ & Hc).
    cbn [row_cells] in Hc.
    destruct (mapM (fun p => subrow_cells (dateFormat st) sch p.1 p.2)
                (imap pair subrows)) as [cs|] eqn:Hm; [|done].
    apply mapM_Some in Hm. apply list_elem_of_lookup in Hx as [j Hj].
    assert (imap pair subrows !! j = Some (j, x)) as Hjx.
    { by rewrite list_lookup_imap, Hj. }
    destruct (Forall2_lookup_l _ _ _ j _ Hm Hjx) as (c & _ & Hsc).
    destruct sch as [|h sch0]; [done|]. unfold subrow_cells in Hsc. cbn in Hsc.
    by rewrite (getValue_nullish (dateFormat st) x h (or_introl Hn)) in Hsc.
Qed.

End RenderLaws.

Lemma render_writes_layout_only_witness :
  ∃ (tpl : template) (st' : state),
    render (M := RefMoment.lib 0)
      (table_state [grouped_row; simple_row] [name_column; qty_column])
    = Some (tpl, st')
    ∧ effects st' = []
    ∧ render (M := RefMoment.lib 0) st' = Some (tpl, st').
Proof.
  destruct (render_ok (M := RefMoment.lib 0)
              (table_state [grouped_row; simple_row] [name_column; qty_column])
              [grouped_row; simple_row] [name_column; qty_column]
              eq_refl eq_refl
              ltac:(repeat constructor) ltac:(repeat constructor))
    as (rows & _ & Hr).
  destruct (render_writes_layout_only (M := RefMoment.lib 0) _ _ _ Hr)
    as (_ & _ & _ & _ & _ & He & Hi).
  eexists _, _. split; [exact Hr|]. split; [exact He|exact Hi].
Defined.

Lemma render_fits_grid_witness :
  ∃ (tpl : template) (st' : state) (g : grid_template),
    render (M := RefMoment.lib 0)
      (table_state [grouped_row; simple_row] [name_column; qty_column])
    = Some (tpl, st')
    ∧ gridtemplate st' = Some (grid_css g)
    ∧ length (thead tpl) = columns g.
Proof.
  destruct (render_fits_grid (M := RefMoment.lib 0)
              (table_state [grouped_row; simple_row] [name_column; qty_column])
              [grouped_row; simple_row] [name_column; qty_column]
              eq_refl eq_refl
              ltac:(repeat constructor) ltac:(repeat constructor))
    as (tpl & st' & g & Hr & Hg & Hh & _).
  exists tpl, st', g. split; [exact Hr|]. split; [exact Hg|exact Hh].
Defined.

Lemma render_needs_arrays_witness :
  ∃ st' : state,
    assign_data (SPrim PNull) (table_state [simple_row] [name_column]) = Some st'
    ∧ render (M := RefMoment.lib 0) st' = None.
Proof.
  apply (proj1 (proj2 (proj2 (render_needs_arrays (M := RefMoment.lib 0)
                                (table_state [simple_row] [name_column])))
                 PNull eq_refl)).
Defined.

Lemma render_raises_on_null_witness :
  render (M := RefMoment.lib 0)
    (table_state [simple_row; VPrim PNull] [name_column])
  = None.
Proof.
  apply (render_raises_on_null (M := RefMoment.lib 0)
           (table_state [simple_row; VPrim PNull] [name_column])
           [simple_row; VPrim PNull] [name_column] eq_refl eq_refl).
  right. left. split; [discriminate|].
  exists (VPrim PNull). split; [|reflexivity].
  apply list_elem_of_In. right. left. reflexivity.
Defined.

(** ** Expansion toggle: the rendered body and repeated clicks *)

Lemma click_result (rows : list (list cell)) (i j : nat) (row : list cell)
    (c : cell) :
  rows !! i = Some row →
  row !! j = Some c →
  _handleToggleExpandClick i j rows
  = Some (<[i := alter (toggle_class "expanded") j (toggle_subrows row)]> rows).
Proof.
  intros Hi Hj. unfold _handleToggleExpandClick. rewrite Hi. cbn. by rewrite Hj.
Qed.

Lemma toggled_row_length (row : list cell) (j : nat) :
  length (alter (toggle_class "expanded") j (toggle_subrows row)) = length row.
Proof. unfold toggle_subrows. by rewrite length_alter, length_map. Qed.

Lemma toggled_row_lookup_inv (row : list cell) (j k : nat) (c' : cell) :
  alter (toggle_class "expanded") j (toggle_subrows row) !! k = Some c' →
  ∃ c : cell,
    row !! k = Some c
    ∧ c' = (if bool_decide (k = j) then toggle_class "expanded" else id)
             ((if has_class "subrow" c then toggle_class "hidden" else id) c).
Proof.
  intros H. pose proof (lookup_lt_Some _ _ _ H) as Hlt.
  rewrite toggled_row_length in Hlt.
  destruct (lookup_lt_is_Some_2 row k Hlt) as [c Hc].
  exists c. split; [done|].
  rewrite (toggled_row_lookup row j k c Hc) in H. by injection H.
Qed.

Lemma subrow_after_click (c : cell) (b : bool) :
  has_class "subrow"
    ((if b then toggle_class "expanded" else id)
       ((if has_class "subrow" c then toggle_class "hidden" else id) c))
  = has_class "subrow" c.
Proof.
  unfold has_class at 1 3. apply bool_decide_ext.
  destruct b, (has_class "subrow" c); cbn; try done;
    repeat (rewrite elem_of_toggle; case_decide; try done).
Qed.

Lemma elem_of_decide_not (t : string) (cl : list string) :
  ¬ (t ∉ cl) ↔ t ∈ cl.
Proof. destruct (decide (t ∈ cl)); tauto. Qed.

(** X8.  Two clicks on the same cell bring the table back: every row
    other than the clicked one is untouched, and in the clicked row each
    cell has its content and exactly the classes it had. *)
Theorem toggle_twice_restores (rows : list (list cell)) (i j : nat)
    (row : list cell) (c : cell) :
  rows !! i = Some row →
  row !! j = Some c →
  ∃ (rows1 rows2 : list (list cell)) (row2 : list cell),
    _handleToggleExpandClick i j rows = Some rows1
    ∧ _handleToggleExpandClick i j rows1 = Some rows2
    ∧ length rows2 = length rows
    ∧ (∀ i' : nat, i' ≠ i → rows2 !! i' = rows !! i')
    ∧ rows2 !! i = Some row2
    ∧ length row2 = length row
    ∧ (∀ (k : nat) (ck : cell),
         row !! k = Some ck →
         ∃ c2 : cell,
           row2 !! k = Some c2
           ∧ cell_body c2 = cell_body ck
           ∧ ∀ t : string, t ∈ classList c2 ↔ t ∈ classList ck).
Proof.
  intros Hi Hj.
  set (row1 := alter (toggle_class "expanded") j (toggle_subrows row)).
  set (row2 := alter (toggle_class "expanded") j (toggle_subrows row1)).
  assert (i < length rows) as Hlt by (by eapply lookup_lt_Some).
  assert (<[i := row1]> rows !! i = Some row1) as Hi1
    by (by apply list_lookup_insert_eq).
  pose proof (toggled_row_lookup row j j c Hj) as Hj1. fold row1 in Hj1.
  exists (<[i := row1]> rows), (<[i := row2]> (<[i := row1]> rows)), row2.
  split; [by apply click_result with c|].
  split; [by eapply click_result|].
  split; [by rewrite !length_insert|].
  split; [intros i' Hne; by rewrite !list_lookup_insert_ne|].
  split; [apply list_lookup_insert_eq; by rewrite length_insert|].
  split; [unfold row2, row1; by rewrite !toggled_row_length|].
  intros k ck Hk.
  pose proof (toggled_row_lookup row j k ck Hk) as Hk1. fold row1 in Hk1.
  pose proof (toggled_row_lookup row1 j k _ Hk1) as Hk2. fold row2 in Hk2.
  eexists. split; [exact Hk2|]. rewrite subrow_after_click.
  clear Hj1 Hi1 Hk1 Hk2.
  destruct (has_class "subrow" ck), (bool_decide (k = j)); cbn;
    (split; [done|]); intros t; try done;
    repeat (rewrite elem_of_toggle; case_decide; subst; try done);
    apply elem_of_decide_not.
Qed.

Lemma toggle_twice_restores_witness :
  ∃ rows1 rows2 : list (list cell),
    _handleToggleExpandClick 0 0 two_groups_dom = Some rows1
    ∧ _handleToggleExpandClick 0 0 rows1 = Some rows2
    ∧ length rows2 = 2%nat.
Proof.
  destruct (toggle_twice_restores two_groups_dom 0 0
              [plain_cell ["expander"]; value_cell [] "kit";
               plain_cell ["subrow"; "hidden"];
               value_cell ["subrow"; "hidden"] "nut"]
              (plain_cell ["expander"]) eq_refl eq_refl)
    as (rows1 & rows2 & _ & H1 & H2 & Hlen & _).
  exists rows1, rows2. split; [exact H1|]. split; [exact H2|exact Hlen].
Defined.

Lemma collapsed_of_class (c : td) :
  td_class c ∈ row_classes → collapsed (cell_of_td c).
Proof.
  destruct c as [cl clk body]. unfold row_classes. cbn [td_class].
  intros H. unfold collapsed, cell_of_td. cbn [td_class td_body classList].
  repeat (apply elem_of_cons in H as [->|H]);
    [..|by apply elem_of_nil in H];
    refine (bool_decide_unpack _ _); vm_compute; exact I.
Qed.

Section RenderedClasses.
Context `{M : MomentLib}.

Lemma row_cells_classes (df : option string) (hidden : bool) (sch : list value)
    (row : value) (cells : list td) :
  row_cells df hidden sch row = Some cells →
  Forall (fun c => td_class c ∈ row_classes) cells.
Proof.
  assert (Hcells : ∀ (r : value) (cls : option string) (cs : list td),
            cls ∈ row_classes →
            mapM (fun header =>
                    v ← _getValue df r header;
                    Some (Td cls false (TdValue v))) sch = Some cs →
            Forall (fun c => td_class c ∈ row_classes) cs).
  { intros r cls cs Hcls Hm. apply mapM_Some in Hm. apply Forall_lookup.
    intros k c Hc. destruct (Forall2_lookup_r _ _ _ k c Hm Hc) as (h & _ & Hv).
    destruct (_getValue df r h); [|done]. cbn in Hv. by injection Hv as <-. }
  assert (Hsimple : ∀ r,
            (cs ← mapM (fun header =>
                          v ← _getValue df r header;
                          Some (Td None false (TdValue v))) sch;
             Some ((if hidden then [Td None false TdEmpty] else []) ++ cs))
            = Some cells →
            Forall (fun c => td_class c ∈ row_classes) cells).
  { intros r H.
    match type of H with
    | context [mapM ?f sch] => destruct (mapM f sch) as [cs|] eqn:Hm; [|done]
    end.
    cbn in H. injection H as <-. apply Forall_app. split.
    - destruct hidden; repeat constructor.
    - apply (Hcells r None cs); [repeat constructor|exact Hm]. }
  destruct row as [p|subrows|fs]; cbn [row_cells]; [apply Hsimple| |apply Hsimple].
  clear Hsimple. intros H.
  destruct (mapM (fun p => subrow_cells df sch p.1 p.2) (imap pair subrows))
    as [cs|] eqn:Hm; [|done].
  cbn in H. injection H as <-. apply mapM_Some in Hm.
  apply Forall_concat, Forall_lookup. intros k chunk Hk.
  destruct (Forall2_lookup_r _ _ _ k chunk Hm Hk) as ([i x] & _ & Hsc).
  unfold subrow_cells in Hsc. cbn [fst snd] in Hsc.
  match type of Hsc with
  | context [mapM ?f sch] => destruct (mapM f sch) as [vs|] eqn:Hv; [|done]
  end.
  cbn in Hsc. injection Hsc as <-. constructor.
  - cbn. destruct (bool_decide (i = 0%nat)); repeat constructor.
  - eapply (Hcells x); [|exact Hv].
    destruct (bool_decide (i = 0%nat)); repeat constructor.
Qed.

Lemma getRows_classes (df : option string) (hidden : bool) (sch D : list value)
    (rows : list (list td)) :
  _getRows df hidden sch D = Some rows →
  Forall (Forall (fun c => td_class c ∈ row_classes)) rows.
Proof.
  unfold _getRows. destruct (length D =? 0)%nat.
  - intros [= <-]. repeat constructor.
  - intros Hm. apply mapM_Some in Hm. apply Forall_lookup. intros k cells Hk.
    destruct (Forall2_lookup_r _ _ _ k cells Hm Hk) as (row & _ & Hc).
    by eapply row_cells_classes.
Qed.

Lemma row_cells_listeners (df : option string) (hidden : bool)
    (sch : list value) (row : value) (cells : list td) :
  row_cells df hidden sch row = Some cells →
  Forall (fun t => td_click t = true → leading_cell t) cells.
Proof.
  assert (Hcells : ∀ (r : value) (cls : option string) (cs : list td),
            mapM (fun header =>
                    v ← _getValue df r header;
                    Some (Td cls false (TdValue v))) sch = Some cs →
            Forall (fun t => td_click t = true → leading_cell t) cs).
  { intros r cls cs Hm. apply mapM_Some in Hm. apply Forall_lookup.
    intros k c Hc. destruct (Forall2_lookup_r _ _ _ k c Hm Hc) as (h & _ & Hv).
    destruct (_getValue df r h); [|done]. cbn in Hv. by injection Hv as <-. }
  assert (Hsimple : ∀ r,
            (cs ← mapM (fun header =>
                          v ← _getValue df r header;
                          Some (Td None false (TdValue v))) sch;
             Some ((if hidden then [Td None false TdEmpty] else []) ++ cs))
            = Some cells →
            Forall (fun t => td_click t = true → leading_cell t) cells).
  { intros r H.
    match type of H with
    | context [mapM ?f sch] => destruct (mapM f sch) as [cs|] eqn:Hm; [|done]
    end.
    cbn in H. injection H as <-. apply Forall_app. split.
    - destruct hidden; repeat constructor; done.
    - by apply (Hcells r None cs). }
  destruct row as [p|subrows|fs]; cbn [row_cells]; [apply Hsimple| |apply Hsimple].
  clear Hsimple. intros H.
  destruct (mapM (fun p => subrow_cells df sch p.1 p.2) (imap pair subrows))
    as [cs|] eqn:Hm; [|done].
  cbn in H. injection H as <-. apply mapM_Some in Hm.
  apply Forall_concat, Forall_lookup. intros k chunk Hk.
  destruct (Forall2_lookup_r _ _ _ k chunk Hm Hk) as ([i x] & _ & Hsc).
  unfold subrow_cells in Hsc. cbn [fst snd] in Hsc.
  match type of Hsc with
  | context [mapM ?f sch] => destruct (mapM f sch) as [vs|] eqn:Hv; [|done]
  end.
  cbn in Hsc. injection Hsc as <-. constructor.
  - intros _. split; [done|]. cbn. destruct (bool_decide (i = 0%nat)); eauto.
  - by eapply (Hcells x).
Qed.

Lemma getRows_listeners (df : option string) (hidden : bool)
    (sch D : list value) (rows : list (list td)) :
  _getRows df hidden sch D = Some rows →
  Forall (Forall (fun t => td_click t = true → leading_cell t)) rows.
Proof.
  unfold _getRows. destruct (length D =? 0)%nat.
  - intros [= <-]. constructor; [|constructor].
    constructor; [|constructor]. intros [=].
  - intros Hm. apply mapM_Some in Hm. apply Forall_lookup. intros k cells Hk.
    destruct (Forall2_lookup_r _ _ _ k cells Hm Hk) as (row & _ & Hc).
    by eapply row_cells_listeners.
Qed.

(** X7.  The body comes out of the renderer collapsed: a cell is hidden
    exactly when it belongs to a sub-row, and none is expanded.  Only
    the empty leading cells of the elements of a grouped row carry the
    listener.  A click on a cell without the listener changes nothing;
    a click on a cell with it leaves no hidden cell in that row, marks
    the clicked cell expanded, and touches no other row. *)
Theorem click_reveals_subrows (df : option string) (hidden : bool)
    (sch D : list value) (rows : list (list td)) (i j : nat)
    (row : list cell) (c : cell) :
  _getRows df hidden sch D = Some rows →
  dom_of_rows rows !! i = Some row →
  row !! j = Some c →
  Forall (Forall collapsed) (dom_of_rows rows)
  ∧ (listener c = false →
     click i j (dom_of_rows rows) = Some (dom_of_rows rows))
  ∧ (listener c = true →
     cell_body c = TdEmpty
     ∧ ("expander" ∈ classList c ∨ "subrow" ∈ classList c)
     ∧ ∃ (rows' : list (list cell)) (row' : list cell),
         click i j (dom_of_rows rows) = Some rows'
         ∧ rows' !! i = Some row'
         ∧ Forall (fun c' => "hidden" ∉ classList c') row'
         ∧ (∀ c' : cell, row' !! j = Some c' → "expanded" ∈ classList c')
         ∧ (∀ i' : nat, i' ≠ i → rows' !! i' = dom_of_rows rows !! i')).
Proof.
  intros Hrows Hi Hj.
  assert (Forall (Forall collapsed) (dom_of_rows rows)) as Hcol.
  { pose proof (getRows_classes _ _ _ _ _ Hrows) as Hcls. unfold dom_of_rows.
    apply Forall_fmap. eapply Forall_impl; [exact Hcls|].
    intros cells Hcells. apply Forall_fmap. eapply Forall_impl; [exact Hcells|].
    intros x Hx. by apply collapsed_of_class. }
  split; [exact Hcol|].
  assert (Hclick : ∀ b, listener c = b →
            click i j (dom_of_rows rows)
            = if b then _handleToggleExpandClick i j (dom_of_rows rows)
              else Some (dom_of_rows rows)).
  { intros b <-. unfold click. rewrite Hi. cbn. by rewrite Hj. }
  split; [intros Hl; by rewrite (Hclick false Hl)|].
  intros Hl. rewrite (Hclick true Hl).
  assert (∃ t : td, c = cell_of_td t
                    ∧ (td_click t = true → leading_cell t)) as (t & Hct & Hlead).
  { unfold dom_of_rows in Hi. change (map ?f ?l) with (f <$> l) in Hi.
    rewrite list_lookup_fmap in Hi.
    destruct (rows !! i) as [tds|] eqn:Htds; [|done].
    cbn in Hi. injection Hi as <-.
    change (map ?f ?l) with (f <$> l) in Hj. rewrite list_lookup_fmap in Hj.
    destruct (tds !! j) as [t|] eqn:Ht; [|done].
    cbn in Hj. injection Hj as <-. exists t. split; [done|].
    pose proof (getRows_listeners _ _ _ _ _ Hrows) as Hls.
    rewrite Forall_lookup in Hls. specialize (Hls i tds Htds).
    rewrite Forall_lookup in Hls. exact (Hls j t Ht). }
  subst c. destruct (Hlead Hl) as [Hbody Hclass].
  split; [exact Hbody|]. split.
  { unfold cell_of_td. cbn [classList].
    destruct Hclass as [Hcl | Hcl]; rewrite Hcl; [left|right]; vm_compute;
      repeat constructor. }
  assert (Forall collapsed row) as Hrow.
  { rewrite Forall_lookup in Hcol. by apply (Hcol i). }
  eexists _, _. split; [by eapply click_result|].
  split; [apply list_lookup_insert_eq; by eapply lookup_lt_Some|].
  split; [|split].
  - apply Forall_lookup. intros k c' Hk.
    apply toggled_row_lookup_inv in Hk as (ck & Hck & ->).
    rewrite Forall_lookup in Hrow. destruct (Hrow k ck Hck) as [Hhid _].
    clear Hj Hi Hl Hclick Hlead Hbody Hclass. unfold has_class.
    destruct (decide ("subrow" ∈ classList ck)) as [Hsub|Hsub];
      [rewrite (bool_decide_eq_true_2 _ Hsub)
      |rewrite (bool_decide_eq_false_2 _ Hsub)];
      destruct (bool_decide (k = j)); cbn; unfold not;
      repeat (rewrite elem_of_toggle; case_decide; try done); tauto.
  - intros c' Hc'. apply toggled_row_lookup_inv in Hc' as (ck & Hck & ->).
    rewrite Hj in Hck. injection Hck as <-.
    rewrite Forall_lookup in Hrow. destruct (Hrow j _ Hj) as [_ Hexp].
    rewrite bool_decide_eq_true_2 by done.
    clear Hj Hi Hl Hclick Hlead Hbody Hclass.
    destruct (has_class "subrow" (cell_of_td t)); cbn;
      repeat (rewrite elem_of_toggle; case_decide; try done).
  - intros i' Hne. by apply list_lookup_insert_ne.
Qed.

End RenderedClasses.

Lemma click_reveals_subrows_witness :
  click 1 1 two_groups_dom = Some two_groups_dom
  ∧ ∃ rows' : list (list cell),
      click 1 0 two_groups_dom = Some rows'
      ∧ rows' !! 0%nat = two_groups_dom !! 0%nat.
Proof.
  assert (_getRows (M := RefMoment.lib 0) None true [name_column] two_groups
          = Some [[Td (Some "expander") true TdEmpty;
                   Td (Some "") false (TdValue (RValue (VStr "kit")));
                   Td (Some "subrow hidden") true TdEmpty;
                   Td (Some "subrow hidden") false
                      (TdValue (RValue (VStr "nut")))];
                  [Td (Some "expander") true TdEmpty;
                   Td (Some "") false (TdValue (RValue (VStr "box")));
                   Td (Some "subrow hidden") true TdEmpty;
                   Td (Some "subrow hidden") false
                      (TdValue (RValue (VStr "lid")))]]) as Hrows.
  { vm_compute. reflexivity. }
  split.
  - destruct (click_reveals_subrows (M := RefMoment.lib 0) None true
                [name_column] two_groups _ 1 1 _ _ Hrows eq_refl eq_refl)
      as (_ & Hnone & _).
    exact (Hnone eq_refl).
  - destruct (click_reveals_subrows (M := RefMoment.lib 0) None true
                [name_column] two_groups _ 1 0 _ _ Hrows eq_refl eq_refl)
      as (_ & _ & Hsome).
    destruct (Hsome eq_refl) as (_ & _ & rows' & row' & Hc & _ & _ & _ & Hother).
    exists rows'. split; [exact Hc|]. apply (Hother 0%nat). discriminate.
Defined.

(** ** Mutation Watcher: nested wrappers and the life cycle *)

Lemma mutate_effects (r : ref) (m : mutation) (st : state) (v : value) :
  heap st !! root r = Some v →
  effects (mutate r m st) = effects st ++ notifications r (Some (m v))
  ∧ heap (mutate r m st) = <[root r := m v]> (heap st).
Proof.
  intros Hv. induction r as [l|id eventName obj IH].
  - cbn. rewrite app_nil_r. split; [done|].
    apply map_eq. intros k. cbn in Hv. destruct (decide (l = k)) as [<-|Hne].
    + by rewrite lookup_alter_eq, lookup_insert_eq, Hv.
    + by rewrite lookup_alter_ne, lookup_insert_ne.
  - cbn [mutate notifications root]. cbn [root] in Hv.
    destruct (IH Hv) as [He Hh].
    destruct (watch_callback_effects eventName obj (mutate obj m st)) as [-> ->].
    split; [|exact Hh].
    unfold deref. rewrite Hh, lookup_insert_eq, He. by rewrite <- app_assoc.
Qed.

Lemma notifications_length (r : ref) (seen : option value) :
  length (notifications r seen) = (2 * length (wrapper_ids r))%nat.
Proof.
  induction r as [l|id eventName obj IH]; [done|].
  cbn [notifications wrapper_ids length]. rewrite length_app, IH. cbn. lia.
Qed.

(** X9.  A mutation through a reference changes the content of the
    root object only, and notifies once for every wrapper on the way,
    the innermost first: two effects per wrapper, none for an object
    reached without a wrapper.  The properties of the component are left
    alone. *)
Theorem mutate_notifies_every_wrapper (r : ref) (m : mutation) (st : state)
    (v : value) :
  heap st !! root r = Some v →
  effects (mutate r m st) = effects st ++ notifications r (Some (m v))
  ∧ length (notifications r (Some (m v))) = (2 * length (wrapper_ids r))%nat
  ∧ heap (mutate r m st) = <[root r := m v]> (heap st)
  ∧ data (mutate r m st) = data st
  ∧ schema (mutate r m st) = schema st.
Proof.
  intros Hv. destruct (mutate_effects r m st v Hv) as [He Hh].
  destruct (mutate_fields r m st) as (Hd & Hs & _).
  split; [exact He|]. split; [apply notifications_length|]. done.
Qed.

Lemma mutate_notifies_every_wrapper_witness :
  effects (mutate (Watched 2 "data-change" (Watched 0 "data-change" (Raw 0%nat)))
             (push simple_row) (table_state [] []))
  = [Dispatched (CustomEvent "data-change" (Raw 0%nat)) (Some (VArr [simple_row]));
     UpdateRequested;
     Dispatched (CustomEvent "data-change" (Watched 0 "data-change" (Raw 0%nat)))
       (Some (VArr [simple_row]));
     UpdateRequested].
Proof.
  apply (proj1 (mutate_notifies_every_wrapper
                  (Watched 2 "data-change" (Watched 0 "data-change" (Raw 0%nat)))
                  (push simple_row) (table_state [] []) (VArr []) eq_refl)).
Defined.

Lemma willUpdate_both (st : state) :
  willUpdate {["data"; "schema"]} st
  = st1 ← (if truthy_slot (data st)
           then '(d, st') ← _watchObject (data st) "data-change" st;
                Some (set_data d st')
           else Some st);
    if truthy_slot (schema st1)
    then '(s, st') ← _watchObject (schema st1) "schema-change" st1;
         Some (set_schema s st')
    else Some st1.
Proof.
  unfold willUpdate.
  rewrite (bool_decide_eq_true_2 ("data" ∈ ({["data"; "schema"]} : gset string)))
    by set_solver.
  rewrite (bool_decide_eq_true_2 ("schema" ∈ ({["data"; "schema"]} : gset string)))
    by set_solver.
  reflexivity.
Qed.

(** X10.  [willUpdate] wraps whatever the property holds, a wrapper
    included.  When the first update reports [data] and [schema] as
    changed, the arrays of the constructor end up behind two wrappers
    each, and one mutation of the data is notified twice: first with the
    array as [detail], then with the inner wrapper. *)
Theorem first_update_wraps_twice (h : gmap loc value) (n : nat) :
  ∃ (st st' : state) (ld ls : loc),
    constructor h n = Some st
    ∧ willUpdate {["data"; "schema"]} st = Some st'
    ∧ data st'
      = SRef (Watched (S (S n)) "data-change" (Watched n "data-change" (Raw ld)))
    ∧ schema st'
      = SRef (Watched (S (S (S n))) "schema-change"
                (Watched (S n) "schema-change" (Raw ls)))
    ∧ ∀ m : mutation,
        effects (mutate (Watched (S (S n)) "data-change"
                           (Watched n "data-change" (Raw ld))) m st')
        = [Dispatched (CustomEvent "data-change" (Raw ld)) (Some (m (VArr [])));
           UpdateRequested;
           Dispatched
             (CustomEvent "data-change" (Watched n "data-change" (Raw ld)))
             (Some (m (VArr [])));
           UpdateRequested].
Proof.
  destruct (constructor_arrays h n)
    as (st & ld & ls & Hc & Hd & Hs & _ & _ & _ & Hld & _ & Hn & He).
  set (d2 := Watched (S (S n)) "data-change" (Watched n "data-change" (Raw ld))).
  set (s2 := Watched (S (S (S n))) "schema-change"
               (Watched (S n) "schema-change" (Raw ls))).
  set (st' := set_schema (SRef s2)
                (set_next_proxy (S (S (S (S n))))
                   (set_data (SRef d2) (set_next_proxy (S (S (S n))) st)))).
  assert (willUpdate {["data"; "schema"]} st = Some st') as Hw.
  { rewrite willUpdate_both, Hd. cbn. rewrite Hs. cbn. by rewrite Hn. }
  exists st, st', ld, ls. split; [exact Hc|]. split; [exact Hw|].
  split; [reflexivity|]. split; [reflexivity|].
  intros m. destruct (mutate_effects d2 m st' (VArr []) Hld) as [He2 _].
  change (effects st') with (effects st) in He2. rewrite He in He2. exact He2.
Qed.

(** C1.  The claim fails for the arrays of the constructor.  When the
    first update reports [data] and [schema] as changed, [willUpdate]
    wraps the wrapper that the constructor made, and one push to the data
    of the new component then dispatches two [data-change] events and
    requests two updates, where the claim has exactly one of each. *)
Theorem default_data_notified_twice (h : gmap loc value) (n : nat) (x : value) :
  ∃ (st st' : state) (w : ref) (e1 e2 : event),
    constructor h n = Some st
    ∧ willUpdate {["data"; "schema"]} st = Some st'
    ∧ data st' = SRef w
    ∧ effects (mutate w (push x) st')
      = [Dispatched e1 (Some (VArr [x])); UpdateRequested;
         Dispatched e2 (Some (VArr [x])); UpdateRequested]
    ∧ ev_type e1 = "data-change"
    ∧ ev_type e2 = "data-change".
Proof.
  destruct (constructor_arrays h n)
    as (st & ld & ls & Hc & Hd & Hs & _ & _ & _ & Hld & _ & Hn & He).
  set (d2 := Watched (S (S n)) "data-change" (Watched n "data-change" (Raw ld))).
  set (s2 := Watched (S (S (S n))) "schema-change"
               (Watched (S n) "schema-change" (Raw ls))).
  set (st' := set_schema (SRef s2)
                (set_next_proxy (S (S (S (S n))))
                   (set_data (SRef d2) (set_next_proxy (S (S (S n))) st)))).
  assert (willUpdate {["data"; "schema"]} st = Some st') as Hw.
  { rewrite willUpdate_both, Hd. cbn. rewrite Hs. cbn. by rewrite Hn. }
  exists st, st', d2, (CustomEvent "data-change" (Raw ld)),
    (CustomEvent "data-change" (Watched n "data-change" (Raw ld))).
  split; [exact Hc|]. split; [exact Hw|]. split; [reflexivity|].
  split; [|done].
  destruct (mutate_effects d2 (push x) st' (VArr []) Hld) as [He2 _].
  change (effects st') with (effects st) in He2. rewrite He in He2. exact He2.
Qed.

Lemma watchObject_fields (obj : slot) (eventName : string) (st st' : state)
    (w : slot) :
  _watchObject obj eventName st = Some (w, st') →
  (∃ r : ref, obj = SRef r ∧ w = SRef (Watched (next_proxy st) eventName r))
  ∧ st' = set_next_proxy (S (next_proxy st)) st.
Proof.
  destruct obj as [p|r]; cbn; [done|]. intros [= <- <-]. split; [eauto|done].
Qed.

(** X11.  [willUpdate] only replaces the properties reported as
    changed: it leaves the heap, the effects, the date format and the
    layout as they are, a property whose name is not in [changed] keeps
    its value, and with neither name in [changed] nothing happens at
    all. *)
Theorem willUpdate_frame (changed : gset string) (st st' : state) :
  willUpdate changed st = Some st' →
  heap st' = heap st ∧ effects st' = effects st
  ∧ dateFormat st' = dateFormat st
  ∧ hasHiddenRows st' = hasHiddenRows st
  ∧ gridtemplate st' = gridtemplate st
  ∧ ("data" ∉ changed → data st' = data st)
  ∧ ("schema" ∉ changed → schema st' = schema st)
  ∧ ("data" ∉ changed → "schema" ∉ changed → st' = st).
Proof.
  unfold willUpdate. intros H.
  destruct (bool_decide ("data" ∈ changed)) eqn:Hd;
    destruct (bool_decide ("schema" ∈ changed)) eqn:Hs;
    [apply bool_decide_eq_true_1 in Hd|apply bool_decide_eq_true_1 in Hd
    |apply bool_decide_eq_false_1 in Hd|apply bool_decide_eq_false_1 in Hd];
    [apply bool_decide_eq_true_1 in Hs|apply bool_decide_eq_false_1 in Hs
    |apply bool_decide_eq_true_1 in Hs|apply bool_decide_eq_false_1 in Hs];
    cbn [andb] in H;
    destruct (data st) as [pd|rd] eqn:Ed; cbn in H;
    try destruct (truthy_prim pd); cbn in H; try done;
    destruct (schema st) as [ps|rs] eqn:Es; cbn in H;
    try destruct (truthy_prim ps); cbn in H; try done;
    injection H as <-; cbn; rewrite ?Ed, ?Es;
    repeat split; try done; try (by destruct st; cbn in *; subst).
Qed.

Lemma willUpdate_frame_witness :
  ∃ st' : state,
    willUpdate {["data"]} (table_state [simple_row] [name_column]) = Some st'
    ∧ schema st' = SRef (Watched 1 "schema-change" (Raw 1%nat))
    ∧ effects st' = [].
Proof.
  assert (willUpdate {["data"]} (table_state [simple_row] [name_column])
          = Some (set_data
                    (SRef (Watched 2 "data-change"
                             (Watched 0 "data-change" (Raw 0%nat))))
                    (set_next_proxy 3 (table_state [simple_row] [name_column]))))
    as Hw.
  { rewrite willUpdate_data. reflexivity. }
  destruct (willUpdate_frame _ _ _ Hw) as (_ & He & _ & _ & _ & _ & Hs & _).
  eexists. split; [exact Hw|]. split; [|exact He].
  apply Hs. set_solver.
Defined.

(** X12.  [willUpdate] raises exactly when a property reported as
    changed holds a truthy primitive (a number other than 0, a non-empty
    string, [true]): the guard lets it through and no wrapper can be
    built around it.  Objects and falsy values never make it raise. *)
Theorem willUpdate_raises_iff (changed : gset string) (st : state) :
  willUpdate changed st = None
  ↔ ("data" ∈ changed ∧ ∃ p : prim, data st = SPrim p ∧ truthy_prim p = true)
    ∨ ("schema" ∈ changed
       ∧ ∃ p : prim, schema st = SPrim p ∧ truthy_prim p = true).
Proof.
  unfold willUpdate.
  destruct (bool_decide ("data" ∈ changed)) eqn:Hd;
    destruct (bool_decide ("schema" ∈ changed)) eqn:Hs;
    [apply bool_decide_eq_true_1 in Hd|apply bool_decide_eq_true_1 in Hd
    |apply bool_decide_eq_false_1 in Hd|apply bool_decide_eq_false_1 in Hd];
    [apply bool_decide_eq_true_1 in Hs|apply bool_decide_eq_false_1 in Hs
    |apply bool_decide_eq_true_1 in Hs|apply bool_decide_eq_false_1 in Hs];
    cbn [andb];
    destruct (data st) as [pd|rd] eqn:Ed; cbn;
    try (destruct (truthy_prim pd) eqn:Epd; cbn);
    rewrite ?Ed;
    destruct (schema st) as [ps|rs] eqn:Es; cbn;
    try (destruct (truthy_prim ps) eqn:Eps; cbn);
    (split; [try done; intros _|try done; intros [[? (p & [= <-] & ?)]|[? (p & [= <-] & ?)]]; try done; congruence]);
    first [left; split; [done|]; eexists; split; [reflexivity|done]
          |right; split; [done|]; eexists; split; [reflexivity|done]].
Qed.

(** ** Mutation and rendering together *)

Section MutateRender.
Context `{M : MomentLib}.

(** X13.  Pushing a row through the wrapper held in [data] and
    rendering: the push adds one event and one update request, the
    rendering adds none, the body has one more row and the footer counts
    one more record.  The schema has to live in another object than the
    data. *)
Theorem push_then_render (st : state) (id : nat) (eventName : string)
    (l : loc) (rs : ref) (D sch : list value) (x : value) :
  data st = SRef (Watched id eventName (Raw l)) →
  heap st !! l = Some (VArr D) →
  schema st = SRef rs →
  root rs ≠ l →
  heap st !! root rs = Some (VArr sch) →
  Forall has_members sch →
  Forall row_ok D →
  row_ok x →
  ∃ (tpl : template) (st' : state),
    render (mutate (Watched id eventName (Raw l)) (push x) st) = Some (tpl, st')
    ∧ tfoot tpl = VNum (Z.of_nat (S (length D)))
    ∧ length (tbody tpl) = S (length D)
    ∧ effects st'
      = effects st ++ [Dispatched (CustomEvent eventName (Raw l))
                         (Some (VArr (D ++ [x])));
                       UpdateRequested].
Proof.
  intros Hd Hl Hs Hne Hsch Hok HD Hx.
  set (st1 := mutate (Watched id eventName (Raw l)) (push x) st).
  destruct (mutate_watched_raw id eventName l (VArr D) (push x) st Hl)
    as [He Hh].
  destruct (mutate_fields (Watched id eventName (Raw l)) (push x) st)
    as (Hd1 & Hs1 & _).
  fold st1 in He, Hh, Hd1, Hs1.
  assert (read_slot st1 (data st1) = Some (VArr (D ++ [x]))) as Hrd.
  { rewrite Hd1, Hd. unfold read_slot, deref. cbn [root].
    by rewrite Hh, lookup_insert_eq. }
  assert (read_slot st1 (schema st1) = Some (VArr sch)) as Hrs.
  { rewrite Hs1, Hs. unfold read_slot, deref.
    by rewrite Hh, lookup_insert_ne. }
  assert (Forall row_ok (D ++ [x])) as HD'.
  { apply Forall_app. split; [done|by constructor]. }
  destruct (render_ok st1 (D ++ [x]) sch Hrd Hrs Hok HD') as (rows & Hrows & Hr).
  eexists _, _. split; [exact Hr|]. cbn [tfoot tbody].
  split; [by rewrite length_app, Nat.add_1_r|]. split; [|exact He].
  unfold _getRows in Hrows.
  assert ((length (D ++ [x]) =? 0)%nat = false) as Hlen.
  { rewrite length_app. cbn. apply Nat.eqb_neq. lia. }
  rewrite Hlen in Hrows. apply length_mapM in Hrows.
  rewrite <- Hrows, length_app. cbn. lia.
Qed.

(** X14.  With an empty schema no field of a row is read: [render]
    returns for every data array, unreadable rows included, with no
    header cell but the placeholder and the footer counting the
    entries. *)
Theorem render_empty_schema (st : state) (D : list value) :
  read_slot st (data st) = Some (VArr D) →
  read_slot st (schema st) = Some (VArr []) →
  ∃ (tpl : template) (st' : state),
    render st = Some (tpl, st')
    ∧ thead tpl = (if existsb isArray D then [ThEmpty] else [])
    ∧ tfoot tpl = VNum (Z.of_nat (length D))
    ∧ gridtemplate st'
      = Some (if existsb isArray D then "1rem repeat(0, 1fr)"
              else "repeat(0, 1fr)").
Proof.
  intros Hd Hs.
  assert (is_Some (_getRows (dateFormat st) (existsb isArray D) [] D))
    as [rows Hrows].
  { unfold _getRows. destruct (length D =? 0)%nat; [by eexists|].
    apply mapM_is_Some, Forall_forall. intros row _. unfold compose.
    destruct row as [p|subrows|fs]; cbn [row_cells];
      [by eexists| |by eexists].
    assert (is_Some (mapM (fun p => subrow_cells (dateFormat st) [] p.1 p.2)
                       (imap pair subrows))) as [cs ->]; [|by eexists].
    apply mapM_is_Some, Forall_forall. intros [i y] _. by eexists. }
  assert (_getHeaders (existsb isArray D) []
          = Some (if existsb isArray D then [ThEmpty] else [])) as Hh.
  { unfold _getHeaders. cbn. by rewrite app_nil_r. }
  rewrite (render_intro st D [] _ rows Hd Hs Hh Hrows).
  eexists _, _. split; [reflexivity|]. cbn.
  split; [done|]. split; [done|]. by destruct (existsb isArray D).
Qed.

End MutateRender.

Lemma push_then_render_witness :
  ∃ (tpl : template) (st' : state),
    render (M := RefMoment.lib 0)
      (mutate (Watched 0 "data-change" (Raw 0%nat)) (push grouped_row)
         (table_state [simple_row] [name_column; qty_column]))
    = Some (tpl, st')
    ∧ tfoot tpl = VNum 2.
Proof.
  destruct (push_then_render (M := RefMoment.lib 0)
              (table_state [simple_row] [name_column; qty_column])
              0 "data-change" 0%nat (Watched 1 "schema-change" (Raw 1%nat))
              [simple_row] [name_column; qty_column] grouped_row
              eq_refl eq_refl eq_refl)
    as (tpl & st' & Hr & Hf & _).
  - discriminate.
  - reflexivity.
  - repeat constructor.
  - repeat constructor.
  - repeat constructor.
  - exists tpl, st'. split; [exact Hr|exact Hf].
Defined.

Lemma render_empty_schema_witness :
  ∃ (tpl : template) (st' : state),
    render (M := RefMoment.lib 0) (table_state [VPrim PNull; grouped_row] [])
    = Some (tpl, st')
    ∧ tfoot tpl = VNum 2.
Proof.
  destruct (render_empty_schema (M := RefMoment.lib 0)
              (table_state [VPrim PNull; grouped_row] [])
              [VPrim PNull; grouped_row] eq_refl eq_refl)
    as (tpl & st' & Hr & _ & Hf & _).
  exists tpl, st'. split; [exact Hr|exact Hf].
Defined.

(** ** A descriptor without a key, and the first rendering *)

(** X15.  A column descriptor without [key] reads the member named
    ["undefined"]: for every row object that has no such member,
    [_getValue] answers the default of the column, or the empty string,
    whatever the type. *)
Theorem getValue_missing_key `{M : MomentLib} (df : option string)
    (fields cols : gmap string value) :
  cols !! "key" = None →
  fields !! "undefined" = None →
  _getValue df (VObj fields) (VObj cols)
  = Some (RValue (coalesce (default VUndef (cols !! "default")) (VStr ""))).
Proof.
  intros Hk Hf. unfold _getValue, get_member. cbn. rewrite Hk. cbn.
  by rewrite Hf.
Qed.

Lemma getValue_missing_key_witness :
  _getValue (M := RefMoment.lib 0) None simple_row
    (VObj (list_to_map [("name", VStr "Total"); ("default", VStr "-")]))
  = Some (RValue (VStr "-")).
Proof.
  refine (eq_trans
            (getValue_missing_key (M := RefMoment.lib 0) None
               (list_to_map [("name", VStr "bolt"); ("qty", VNum 7)])
               (list_to_map [("name", VStr "Total"); ("default", VStr "-")])
               _ _) _);
    vm_compute; reflexivity.
Defined.

(** X16.  A component fresh from the constructor renders the empty
    table: no header cell, the single [nodata_row], a footer of 0
    records and the grid [repeat(0, 1fr)], without any effect. *)
Theorem render_new_component `{M : MomentLib} (h : gmap loc value) (n : nat) :
  ∃ (st st' : state),
    constructor h n = Some st
    ∧ render st
      = Some (Template [] [nodata_row] (VNum 0), st')
    ∧ hasHiddenRows st' = false
    ∧ gridtemplate st' = Some "repeat(0, 1fr)"
    ∧ effects st' = [].
Proof.
  destruct (constructor_arrays h n)
    as (st & ld & ls & Hc & Hd & Hs & _ & _ & _ & Hld & Hls & _ & He).
  assert (read_slot st (data st) = Some (VArr [])) as Hrd.
  { rewrite Hd. exact Hld. }
  assert (read_slot st (schema st) = Some (VArr [])) as Hrs.
  { rewrite Hs. exact Hls. }
  exists st. eexists. split; [exact Hc|].
  rewrite (render_intro st [] [] [] [nodata_row] Hrd Hrs eq_refl eq_refl).
  split; [reflexivity|]. cbn. by rewrite He.
Qed.
